(** * Dataset ingestion of [DatabaseConnection.py]

    A shallow embedding of [DatabaseConnection.addDataset] and of the three
    private steps it drives ([__addDatasetEntry], [__addMetaDataset],
    [__addPurchasesDataset]), followed by the properties of the ingestion
    that the specification states.

    - [Pandas]  : the data frames and the frame operations the loaders use.
    - [Db]      : the store, the events a run emits, and the state-and-error
                  monad in which the methods are written.
    - [Ingest]  : the methods of [DatabaseConnection], line by line.
    - [Connection] : [__init__], [connect], [getConnection], [logVersion].
    - [Tasks]   : the task [insert_dataset] that starts an ingestion.
    - the remaining sections hold the lemmas and the theorems. *)

From Stdlib Require Import ZArith String Ascii List DecimalString.
From stdpp Require Import base option list strings gmap.

Local Open Scope string_scope.
Local Open Scope list_scope.

(** ** Data frames *)

Module Pandas.

(** A parsed cell.  [None] is pandas' NaN, which [to_csv] prints as the
    empty field and [copy_from (null='')] reads back as NULL. *)
Inductive value :=
| VStr (s : string)
| VInt (n : Z).

#[global] Instance value_eq_dec : EqDecision value.
Proof. solve_decision. Defined.

Definition cell := option value.

(** A frame holds its column labels and its rows in index order; every
    frame the loaders see carries the default [RangeIndex]. *)
Record DataFrame := mkFrame {
  columns : list string;
  rows : list (list cell)
}.

(** Every row of a frame has one cell per column. *)
Definition frame_rect (df : DataFrame) : Prop :=
  Forall (λ r, length r = length (columns df)) (rows df).

(** A frame as [read_csv] returns it: repeated header labels have been
    renamed apart. *)
Definition frame_wf (df : DataFrame) : Prop :=
  NoDup (columns df) ∧ frame_rect df.

(** The cells of row [r] that sit under the columns selected by [P],
    in column order. *)
Fixpoint pick (P : string → bool) (cols : list string) (r : list cell)
  : list cell :=
  match cols, r with
  | c :: cols', v :: r' =>
      if P c then v :: pick P cols' r' else pick P cols' r'
  | _, _ => []
  end.

Definition is_label (c : string) : string → bool := λ x, bool_decide (x = c).
Definition in_labels (cs : list string) : string → bool :=
  λ x, bool_decide (x ∈ cs).

(** [df[[c]].copy()] *)
Definition select (c : string) (df : DataFrame) : DataFrame :=
  {| columns := filter (λ x, x = c) (columns df);
     rows := map (pick (is_label c) (columns df)) (rows df) |}.

(** [df[c]] as a series in index order (the label is unique in a frame
    that [read_csv] produced). *)
Definition series (c : string) (df : DataFrame) : list cell :=
  map (λ r, hd None (pick (is_label c) (columns df) r)) (rows df).

(** Writing [v] under every column labelled [c] of one row. *)
Fixpoint overwrite (c : string) (v : cell) (cols : list string)
  (r : list cell) : list cell :=
  match cols, r with
  | x :: cols', y :: r' =>
      (if bool_decide (x = c) then v else y) :: overwrite c v cols' r'
  | _, _ => r
  end.

Definition set_cell (c : string) (v : cell) (cols : list string)
  (r : list cell) : list cell :=
  if bool_decide (c ∈ cols) then overwrite c v cols r else r ++ [v].

Definition set_label (c : string) (cols : list string) : list string :=
  if bool_decide (c ∈ cols) then cols else cols ++ [c].

(** [df[c] = v] for a scalar [v]: an existing column is overwritten in
    place, a new one is appended as the last column. *)
Definition assign (c : string) (v : cell) (df : DataFrame) : DataFrame :=
  {| columns := set_label c (columns df);
     rows := map (set_cell c v (columns df)) (rows df) |}.

(** [df[c] = s] for a series [s] over the same [RangeIndex]: aligned row
    by row; an index the series lacks receives NaN. *)
Fixpoint assign_rows (c : string) (cols : list string)
  (rs : list (list cell)) (s : list cell) : list (list cell) :=
  match rs with
  | [] => []
  | r :: rs' => set_cell c (hd None s) cols r :: assign_rows c cols rs' (tl s)
  end.

Definition assign_series (c : string) (s : list cell) (df : DataFrame)
  : DataFrame :=
  {| columns := set_label c (columns df);
     rows := assign_rows c (columns df) (rows df) s |}.

Definition no_null (r : list cell) : bool := forallb (λ v, bool_decide (is_Some v)) r.

(** [df.dropna(how="any", axis=0)] *)
Definition dropna (df : DataFrame) : DataFrame :=
  {| columns := columns df; rows := List.filter no_null (rows df) |}.

(** [df.rename(columns={old: new})] *)
Definition rename (old new : string) (df : DataFrame) : DataFrame :=
  {| columns := map (λ c, if bool_decide (c = old) then new else c) (columns df);
     rows := rows df |}.

(** The key [duplicated] compares: the cells under the columns whose
    label is in [subset]. *)
Definition row_key (subset cols : list string) (r : list cell) : list cell :=
  pick (in_labels subset) cols r.

(** Rows are visited in index order; a row is kept unless its key was
    seen before ([keep="first"]). *)
Fixpoint keep_first (subset cols : list string) (seen : list (list cell))
  (rs : list (list cell)) : list (list cell) :=
  match rs with
  | [] => []
  | r :: rs' =>
      let k := row_key subset cols r in
      if bool_decide (k ∈ seen) then keep_first subset cols seen rs'
      else r :: keep_first subset cols (k :: seen) rs'
  end.

(** [df.drop_duplicates(subset=...)] *)
Definition drop_duplicates (subset : list string) (df : DataFrame)
  : DataFrame :=
  {| columns := columns df;
     rows := keep_first subset (columns df) [] (rows df) |}.

End Pandas.
Export Pandas.

(** ** The store, the trace and the monad *)

Module Db.

Record DatasetRow := mkDataset { name : string; uploaded_by : string }.

#[global] Instance DatasetRow_eq_dec : EqDecision DatasetRow.
Proof. solve_decision. Defined.

(** A row that [copy_from] streamed into a table, with the target columns
    the call named ([None]: the table's own column order). *)
Record BulkRow := mkBulk {
  target_columns : option (list string);
  fields : list cell
}.

#[global] Instance BulkRow_eq_dec : EqDecision BulkRow.
Proof. solve_decision. Defined.

(** The [dataset] table, and for every table name the rows that bulk copies
    handed to the server for that table, in order.  The table definitions
    are reflected from the database and are not part of the module, so what
    the server does with a copy (it refuses an unknown or repeated target
    column and a row that breaks a constraint, and reads an empty field as
    NULL) is outside the model: [relations] records what was sent. *)
Record Store := mkStore {
  dataset : list DatasetRow;
  relations : gmap string (list BulkRow)
}.

Definition table (t : string) (s : Store) : list BulkRow :=
  default [] (relations s !! t).

(** What a run does to the outside, in program order. *)
Inductive Event :=
| EvReflect
| EvLog (msg : string)
| EvLogError (msg : string)
| EvQuery (tbl : string) (key : string)
| EvEngineInsert (tbl : string) (row : DatasetRow)
| EvIsFile (filename : string)
| EvTime
| EvCursor
| EvReadCsv (filename : string) (sep : string)
| EvCopyFrom (tbl : string) (cols : option (list string)) (nrows : nat)
| EvCommit.

#[global] Instance Event_eq_dec : EqDecision Event.
Proof. solve_decision. Defined.

Record World := mkWorld {
  store : Store;
  trace : list Event;
  clock_reads : nat
}.

(** The collaborators the methods call into: the file system, the CSV
    parser and the wall clock (in microseconds, by number of the read). *)
Record Env := mkEnv {
  is_file : string → bool;
  read_csv : string → string → option DataFrame;
  time : nat → Z
}.

(** [pd.read_csv] raises when the file cannot be read or parsed. *)
Inductive Exn :=
| ReadError (filename : string).

Inductive Outcome (A : Type) :=
| Returned (a : A)
| Raised (e : Exn).
Arguments Returned {A} a.
Arguments Raised {A} e.

Definition M (A : Type) : Type := World → Outcome A * World.

#[global] Instance M_ret : MRet M := λ A a w, (Returned a, w).

#[global] Instance M_bind : MBind M := λ A B f m w,
  match m w with
  | (Returned a, w') => f a w'
  | (Raised e, w') => (Raised e, w')
  end.

Definition raise {A} (e : Exn) : M A := λ w, (Raised e, w).

Definition emit (e : Event) : M unit := λ w,
  (Returned (), {| store := store w; trace := trace w ++ [e];
                   clock_reads := clock_reads w |}).

Definition get_store : M Store := λ w, (Returned (store w), w).

Definition update_store (f : Store → Store) : M unit := λ w,
  (Returned (), {| store := f (store w); trace := trace w;
                   clock_reads := clock_reads w |}).

(** A [for] loop whose body returns nothing. *)
Fixpoint for_each {A} (l : list A) (body : A → M unit) : M unit :=
  match l with
  | [] => mret ()
  | x :: l' => body x ;; for_each l' body
  end.

End Db.
Export Db.

(** ** The methods of [DatabaseConnection] *)

Module Ingest.
Section Methods.

Variable env : Env.

Definition dquote : string := String (ascii_of_nat 34) EmptyString.

Definition seconds (n : Z) : string := NilZero.string_of_int (Z.to_int n).

(** *** Collaborators: logger, schema reflection, file system, clock *)

Definition Logger_log (msg : string) : M unit := emit (EvLog msg).
Definition Logger_logError (msg : string) : M unit := emit (EvLogError msg).

Definition reflect : M unit := emit EvReflect.

Definition Path_is_file (filename : string) : M bool :=
  emit (EvIsFile filename) ;; mret (is_file env filename).

Definition time_time : M Z := λ w,
  (Returned (time env (clock_reads w)),
   {| store := store w; trace := trace w ++ [EvTime];
      clock_reads := S (clock_reads w) |}).

Definition pd_read_csv (filename sep : string) : M DataFrame :=
  emit (EvReadCsv filename sep) ;;
  match read_csv env filename sep with
  | Some df => mret df
  | None => raise (ReadError filename)
  end.

(** *** Store primitives *)

(** [queryTable(datasets_table, {"name": n}).first()] *)
Definition queryTable_first (n : string) : M (option DatasetRow) :=
  emit (EvQuery "dataset" n) ;;
  s ← get_store ;
  mret (List.find (λ r, bool_decide (name r = n)) (dataset s)).

(** [insertRow]: one row through [engine.execute]. *)
Definition insertRow (row : DatasetRow) : M unit :=
  emit (EvEngineInsert "dataset" row) ;;
  update_store (λ s, {| dataset := dataset s ++ [row];
                        relations := relations s |}).

Definition session_cursor : M unit := emit EvCursor.

(** [to_csv] into a buffer followed by [cursor.copy_from]: the frame's
    rows are handed to the copy for table [tbl] in order, under the target
    columns [cols].  The tab-separated text in between, and the server's
    answer to it, are not modelled. *)
Definition copy_from (df : DataFrame) (tbl : string)
  (cols : option (list string)) : M unit :=
  emit (EvCopyFrom tbl cols (length (rows df))) ;;
  update_store (λ s,
    {| dataset := dataset s;
       relations := <[tbl := table tbl s ++ map (mkBulk cols) (rows df)]>
                      (relations s) |}).

Definition session_commit : M unit := emit EvCommit.

(** *** [__addDatasetEntry] *)

Definition already_exists_msg (dataset_name : string) : string :=
  "Couldn't add dataset " +:+ dataset_name +:+ ", it already exists".

Definition __addDatasetEntry (dataset_name uploader_name : string) : M bool :=
  found ← queryTable_first dataset_name ;
  if bool_decide (is_Some found) then
    Logger_logError (already_exists_msg dataset_name) ;;
    mret false
  else
    insertRow {| name := dataset_name; uploaded_by := uploader_name |} ;;
    mret true.

(** *** [__addMetaDataset] *)

Definition missing_column_msg (column dataset_name : string) : string :=
  "Could not find " +:+ dquote +:+ column +:+ dquote +:+ " column in "
    +:+ dataset_name.

Definition id_column (meta_data_type : string) : string :=
  meta_data_type +:+ "_id".

Definition attribute_table (meta_data_type : string) : string :=
  meta_data_type +:+ "_attribute".

(** The frame of the identity load (lines 123-124). *)
Definition meta_data_table (dataset_name meta_data_type : string)
  (df_csv : DataFrame) : DataFrame :=
  assign "dataset_name" (Some (VStr dataset_name))
    (select (id_column meta_data_type) df_csv).

(** The frame built for one attribute column (lines 136-144). *)
Definition meta_data_attribute_table (dataset_name meta_data_type : string)
  (df_csv : DataFrame) (attribute_name : string) : DataFrame :=
  dropna
    (assign "type" (Some (VInt 0))
      (assign_series "value" (series attribute_name df_csv)
        (assign "attribute" (Some (VStr attribute_name))
          (assign "dataset_name" (Some (VStr dataset_name))
            (select (id_column meta_data_type) df_csv))))).

Definition __addMetaDataset (dataset_name meta_data_filename
  meta_data_type : string) : M bool :=
  reflect ;;
  session_cursor ;;
  df_csv ← pd_read_csv meta_data_filename "," ;
  let attribute_names := columns df_csv in
  if bool_decide (id_column meta_data_type ∉ attribute_names) then
    Logger_logError
      (missing_column_msg (id_column meta_data_type) dataset_name) ;;
    mret false
  else
    copy_from (meta_data_table dataset_name meta_data_type df_csv)
      meta_data_type None ;;
    for_each attribute_names (λ attribute_name,
      if bool_decide (attribute_name = id_column meta_data_type) then
        mret ()
      else
        let df := meta_data_attribute_table dataset_name meta_data_type
                    df_csv attribute_name in
        copy_from df (attribute_table meta_data_type) (Some (columns df))) ;;
    mret true.

(** *** [__addPurchasesDataset] *)

Definition purchase_subset : list string :=
  ["dataset_name"; "customer_id"; "article_id"; "timestamp"].

(** The frame of the purchase load (lines 179-185). *)
Definition purchase_data_table (dataset_name : string) (df_csv : DataFrame)
  : DataFrame :=
  drop_duplicates purchase_subset
    (rename "t_dat" "timestamp"
      (assign "dataset_name" (Some (VStr dataset_name)) df_csv)).

Definition __addPurchasesDataset (dataset_name purchases_data_filename
  : string) : M bool :=
  reflect ;;
  session_cursor ;;
  df_csv ← pd_read_csv purchases_data_filename "," ;
  let attribute_names := columns df_csv in
  if bool_decide ("customer_id" ∉ attribute_names) then
    Logger_logError (missing_column_msg "customer_id" dataset_name) ;;
    mret false
  else if bool_decide ("article_id" ∉ attribute_names) then
    Logger_logError (missing_column_msg "article_id" dataset_name) ;;
    mret false
  else if bool_decide ("price" ∉ attribute_names) then
    Logger_logError (missing_column_msg "price" dataset_name) ;;
    mret false
  else if bool_decide ("t_dat" ∉ attribute_names) then
    Logger_logError (missing_column_msg "t_dat" dataset_name) ;;
    mret false
  else
    let df := purchase_data_table dataset_name df_csv in
    copy_from df "purchase" (Some (columns df)) ;;
    mret true.

(** *** [addDataset] *)

Definition adding_msg (dataset_name : string) : string :=
  "Adding dataset " +:+ dataset_name.

Definition not_found_msg (filename : string) : string :=
  "Could not find " +:+ filename.

Definition added_msg (dataset_name : string) (start stop : Z) : string :=
  "Added dataset " +:+ dquote +:+ dataset_name +:+ dquote +:+ " in "
    +:+ seconds ((stop - start) `div` 1000000) +:+ " seconds".

(** The files are checked but a missing one only leaves a log line. *)
Definition check_files (filenames : list string) : M unit :=
  for_each filenames (λ filename,
    present ← Path_is_file filename ;
    if negb present then Logger_logError (not_found_msg filename)
    else mret ()).

(** [addDataset] returns [False] when the registration fails and falls off
    its end ([None]) otherwise. *)
Definition addDataset (dataset_name uploader_name purchase_data_filename
  article_data_filename customer_data_filename : string) : M (option bool) :=
  reflect ;;
  Logger_log (adding_msg dataset_name) ;;
  registered ← __addDatasetEntry dataset_name uploader_name ;
  if negb registered then mret (Some false)
  else
    check_files [purchase_data_filename; article_data_filename;
                 customer_data_filename] ;;
    start_time ← time_time ;
    _ ← __addMetaDataset dataset_name article_data_filename "article" ;
    _ ← __addMetaDataset dataset_name customer_data_filename "customer" ;
    _ ← __addPurchasesDataset dataset_name purchase_data_filename ;
    session_commit ;;
    stop_time ← time_time ;
    Logger_log (added_msg dataset_name start_time stop_time) ;;
    mret None.

End Methods.
End Ingest.
Export Ingest.

(** ** Opening the connection

    [DatabaseConnection.__init__], [connect], [getConnection] and
    [logVersion].  The configuration reader, the engine factory and the
    server are collaborators; a connection object holds what [connect]
    stored in it. *)

Module Connection.

Inductive Error :=
| KeyError (key : string)
| AttributeError (attr : string)
| External (what : string).

(** What [create_engine] was asked for, and the engine it answered with. *)
Record Engine (E : Type) := mkEngine {
  url : string;
  executemany_mode : string;
  handle : E
}.
Arguments mkEngine {E} url executemany_mode handle.
Arguments url {E} e.
Arguments executemany_mode {E} e.
Arguments handle {E} e.

(** [scoped_session(sessionmaker(bind=engine))] and [MetaData(bind=engine)]
    keep the engine they are bound to. *)
Record DatabaseConnection (E : Type) := mkConnection {
  engine : option (Engine E);
  session : option (Engine E);
  meta_data : option (Engine E)
}.
Arguments mkConnection {E} engine session meta_data.
Arguments engine {E} d.
Arguments session {E} d.
Arguments meta_data {E} d.

Record Sqla := mkSqla {
  E : Type;
  C : Type;
  (** [configDatabase(filename, section)]: the parameters of the section. *)
  configDatabase : string → string → Error + gmap string string;
  (** [sqlalchemy.create_engine(url, executemany_mode=...)] *)
  create_engine : string → string → Error + E;
  (** [engine.connect()] *)
  engine_connect : E → Error + C;
  (** [session.execute("SELECT version()").fetchone()[0]] *)
  server_version : E → Error + string
}.

Section Methods.

Variable lib : Sqla.

Definition __init__ : DatabaseConnection (E lib) :=
  {| engine := None; session := None; meta_data := None |}.

(** [params[key]] *)
Definition item (params : gmap string string) (key : string)
  : Error + string :=
  match params !! key with
  | Some v => inr v
  | None => inl (KeyError key)
  end.

Definition engine_url (user dbname : string) : string :=
  "postgresql://" +:+ user +:+ "@localHost:5432/" +:+ dbname.

(** [connect] returns the error it raised, if any, and the object as the
    call left it. *)
Definition connect (self : DatabaseConnection (E lib))
  (filename section : string)
  : option Error * DatabaseConnection (E lib) :=
  match configDatabase lib filename section with
  | inl e => (Some e, self)
  | inr params =>
      match item params "user" with
      | inl e => (Some e, self)
      | inr user =>
          match item params "dbname" with
          | inl e => (Some e, self)
          | inr dbname =>
              match create_engine lib (engine_url user dbname) "batch" with
              | inl e => (Some e, self)
              | inr h =>
                  let eng := mkEngine (engine_url user dbname) "batch" h in
                  (None, {| engine := Some eng; session := Some eng;
                            meta_data := Some eng |})
              end
          end
      end
  end.

(** [connect()] with its default arguments. *)
Definition connect_default (self : DatabaseConnection (E lib)) :=
  connect self "database.ini" "postgresql".

Definition getConnection (self : DatabaseConnection (E lib))
  : Error + C lib :=
  match engine self with
  | None => inl (AttributeError "connect")
  | Some eng => engine_connect lib (handle eng)
  end.

(** [logVersion] returns the line it logged. *)
Definition logVersion (self : DatabaseConnection (E lib)) : Error + string :=
  match session self with
  | None => inl (AttributeError "execute")
  | Some eng =>
      match server_version lib (handle eng) with
      | inl e => inl e
      | inr db_version => inr ("PostgreSQL database version:" +:+ db_version)
      end
  end.

End Methods.

(** The same library reading another configuration. *)
Definition with_config (lib : Sqla)
  (cfg : string → string → Error + gmap string string) : Sqla :=
  {| E := E lib; C := C lib; configDatabase := cfg;
     create_engine := create_engine lib;
     engine_connect := engine_connect lib;
     server_version := server_version lib |}.

(** A connection object is either untouched or fully set up on one
    engine. *)
Definition connected {E} (d : DatabaseConnection E) (eng : Engine E) : Prop :=
  engine d = Some eng ∧ session d = Some eng ∧ meta_data d = Some eng.

End Connection.

(** ** The task that starts an ingestion

    [insert_dataset] of [celeryTasks/tasks.py].  The class [InsertDataset]
    it drives is a collaborator: its constructor and its three methods act
    on the object and may raise. *)

Module Tasks.

#[warnings="-register-all"]
Inductive PyVal :=
| PStr (s : string)
| PList (l : list PyVal)
| PDict (d : list (string * PyVal)).

(** The classes the [except] clauses tell apart: a [ValueError], another
    [Exception], or an error outside [Exception]. *)
Inductive ErrClass := ValueError | OtherException | NotException.

Record PyErr := mkErr { cls : ErrClass; str : string }.

Record InsertDatasetClass := mkClass {
  Obj : Type;
  init : string → list (string * string) → PyVal → PyErr + Obj;
  start_insert : Obj → option PyErr * Obj;
  abort : Obj → option PyErr * Obj;
  cleanup : Obj → option PyErr * Obj
}.

Inductive TaskEvent :=
| TPrint (user_id : string) (filenames : list (string * string))
    (column_select_data : PyVal)
| TInit (user_id : string) (filenames : list (string * string))
    (column_select_data : PyVal)
| TStartInsert
| TAbort
| TCleanup
| TLogError (msg : string).

Section Task.

Variable I : InsertDatasetClass.

(** [getAbsPathFromProjectRoot] *)
Variable abs_path : string → string.

Definition St : Type := list TaskEvent * Obj I.
Definition T (A : Type) : Type := St → (PyErr + A) * St.

Definition ret {A} (a : A) : T A := λ s, (inr a, s).

Definition bind {A B} (m : T A) (f : A → T B) : T B := λ s,
  match m s with
  | (inr a, s') => f a s'
  | (inl e, s') => (inl e, s')
  end.

Definition raise {A} (e : PyErr) : T A := λ s, (inl e, s).

(** A method call on the object. *)
Definition call (ev : TaskEvent) (method : Obj I → option PyErr * Obj I)
  : T unit := λ s,
  let '(r, o) := method s.2 in
  (match r with Some e => inl e | None => inr () end, (s.1 ++ [ev], o)).

Definition Logger_logError (msg : string) : T unit := λ s,
  (inr (), (s.1 ++ [TLogError msg], s.2)).

(** [try: body except ...: handler]; [handler] answers [None] for an error
    that no clause matches. *)
Definition try_except {A} (body : T A) (handler : PyErr → option (T A))
  : T A := λ s,
  match body s with
  | (inr a, s') => (inr a, s')
  | (inl e, s') =>
      match handler e with
      | Some h => h s'
      | None => (inl e, s')
      end
  end.

(** [try: body finally: fin]; an error raised by [fin] takes the place of
    the outcome of [body]. *)
Definition try_finally {A} (body : T A) (fin : T unit) : T A := λ s,
  let '(r, s1) := body s in
  match fin s1 with
  | (inl e, s2) => (inl e, s2)
  | (inr _, s2) => (r, s2)
  end.

Definition debug_filenames : list (string * string) :=
  [("purchases.csv", abs_path "../datasets/h_m/purchases.csv");
   ("articles.csv", abs_path "../datasets/h_m/articles.csv");
   ("customers.csv", abs_path "../datasets/h_m/customers.csv")].

Definition attribute_entry (column type : string) : PyVal :=
  PDict [("column_name", PStr column); ("name", PStr column);
         ("type", PStr type)].

Definition debug_column_select_data : PyVal :=
  PDict
    [("dataset_name", PStr "H&M");
     ("file_seperators",
      PDict [("purchases.csv", PStr ","); ("articles.csv", PStr ",");
             ("customers.csv", PStr ",")]);
     ("file_column_data_types",
      PDict [("purchases.csv",
              PDict [("t_dat", PStr "date"); ("price", PStr "float");
                     ("article_id", PStr "Int64");
                     ("customer_id", PStr "Int64")]);
             ("articles.csv", PDict [("article_id", PStr "Int64")]);
             ("customers.csv", PDict [("customer_id", PStr "Int64")])]);
     ("purchase_data",
      PDict [("filenames", PList [PStr "purchases.csv"]);
             ("column_name_bought_on", PStr "t_dat");
             ("column_name_price", PStr "price");
             ("column_name_article_id", PStr "article_id");
             ("column_name_customer_id", PStr "customer_id");
             ("article_metadata_attributes", PList []);
             ("customer_metadata_attributes", PList [])]);
     ("article_metadata",
      PList [PDict [("filenames", PList [PStr "articles.csv"]);
                    ("column_name_id", PStr "article_id");
                    ("attributes",
                     PList [attribute_entry "product_code" "int";
                            attribute_entry "graphical_appearance_name"
                              "string";
                            attribute_entry "image_url" "image"])]]);
     ("customer_metadata",
      PList [PDict [("filenames", PList [PStr "customers.csv"]);
                    ("column_name_id", PStr "customer_id");
                    ("attributes",
                     PList [attribute_entry "age" "float";
                            attribute_entry "postal_code" "string"])]])].

(** The [except ValueError] and [except Exception] clauses. *)
Definition on_error (err : PyErr) : option (T unit) :=
  match cls err with
  | ValueError =>
      Some (bind (call TAbort (abort I)) (λ _,
            bind (Logger_logError (str err)) (λ _, raise err)))
  | OtherException =>
      Some (bind (call TAbort (abort I)) (λ _,
            bind (Logger_logError (str err)) (λ _, raise err)))
  | NotException => None
  end.

(** The [try] statement and the [return] after it. *)
Definition run_insert : T string :=
  bind
    (try_finally
       (try_except (call TStartInsert (start_insert I)) on_error)
       (call TCleanup (cleanup I)))
    (λ _, ret "started dataset insert").

(** The object as the [try] and [except] clauses leave it, on which
    [cleanup] is called. *)
Definition before_cleanup (obj : Obj I) : Obj I :=
  match start_insert I obj with
  | (None, o1) => o1
  | (Some err, o1) =>
      match cls err with
      | NotException => o1
      | _ => (abort I o1).2
      end
  end.

(** [insert_dataset]: what it returns or raises, what it did, and the
    object if one was built. *)
Definition insert_dataset (user_id : string)
  (filenames : list (string * string)) (column_select_data : PyVal)
  : (PyErr + string) * list TaskEvent * option (Obj I) :=
  let printed := [TPrint user_id filenames column_select_data] in
  let filenames := debug_filenames in
  let column_select_data := debug_column_select_data in
  let built := printed ++ [TInit user_id filenames column_select_data] in
  match init I user_id filenames column_select_data with
  | inl e => (inl e, built, None)
  | inr obj =>
      let '(r, (tr, obj')) := run_insert (built, obj) in
      (r, tr, Some obj')
  end.

End Task.
End Tasks.

(** ** Observations

    What the statements below read off a run, a frame or a table. *)

(** The events a run added to the trace of the world it started in. *)
Definition emitted (w w' : World) : list Event :=
  drop (length (trace w)) (trace w').

(** How many times a run committed. *)
Definition commits (evs : list Event) : nat :=
  length (filter (λ e, e = EvCommit) evs).


(** What every event before the closing commit looks like: it is not a
    commit, and a CSV read uses the comma. *)
Definition body_event (e : Event) : Prop :=
  match e with
  | EvCommit => False
  | EvReadCsv _ sep => sep = ","
  | _ => True
  end.

(** A CSV read with the comma as separator, or any other event. *)
Definition comma_read (e : Event) : Prop :=
  match e with
  | EvReadCsv _ sep => sep = ","
  | _ => True
  end.

(** The cell of row [r] under the column labelled [c]. *)
Definition cell_at (c : string) (df : DataFrame) (r : list cell) : cell :=
  hd None (pick (is_label c) (columns df) r).

(** The columns of an attribute frame, in the order they are set. *)
Definition attribute_columns (k : string) : list string :=
  [id_column k; "dataset_name"; "attribute"; "value"; "type"].

(** The row an attribute frame holds for CSV row [r] and column [a]. *)
Definition attribute_cells (dn k : string) (df : DataFrame) (a : string)
  (r : list cell) : list cell :=
  [cell_at (id_column k) df r; Some (VStr dn); Some (VStr a);
   cell_at a df r; Some (VInt 0)].

(** The rows expected in the attribute table for column [a]: one for every
    CSV row whose cell under [a] is not null. *)
Definition attribute_rows (dn k : string) (df : DataFrame) (a : string)
  : list BulkRow :=
  flat_map (λ r,
    match cell_at a df r with
    | Some _ => [mkBulk (Some (attribute_columns k)) (attribute_cells dn k df a r)]
    | None => []
    end) (rows df).

(** The number of null entries of a series. *)
Definition nulls (s : list cell) : nat :=
  length (List.filter (λ v, bool_decide (v = None)) s).

(** The purchase frame before duplicates are dropped: the CSV rows with the
    dataset name attached and [t_dat] relabelled. *)
Definition purchase_named (dn : string) (df : DataFrame) : DataFrame :=
  rename "t_dat" "timestamp" (assign "dataset_name" (Some (VStr dn)) df).

(** The label of a CSV column in the purchase frame. *)
Definition relabel (c : string) : string :=
  if bool_decide (c = "t_dat") then "timestamp" else c.

(** *** Reading a purchase CSV by position

    The cell of a CSV row under a column, found by the position of the
    label in the header. *)
Definition csv_cell (df : DataFrame) (c : string) (r : list cell) : cell :=
  match list_find (λ x, x = c) (columns df) with
  | Some (i, _) => default None (r !! i)
  | None => None
  end.

(** What tells two purchases apart within one dataset: the cells under
    [customer_id], [article_id] and the columns that the purchase frame
    labels [timestamp] (the CSV's [t_dat], and its own [timestamp] column if
    it has one; an absent column reads as null). *)
Definition purchase_key (df : DataFrame) (r : list cell) : list cell :=
  map (λ c, csv_cell df c r) ["customer_id"; "article_id"; "t_dat"; "timestamp"].

(** A CSV row with the dataset name put in: in the place of the CSV's own
    [dataset_name] cell if the header has that column, as a new last cell
    otherwise. *)
Definition with_dataset_name (dn : string) (df : DataFrame) (r : list cell)
  : list cell :=
  match list_find (λ x, x = "dataset_name") (columns df) with
  | Some (i, _) => <[i := Some (VStr dn)]> r
  | None => r ++ [Some (VStr dn)]
  end.

(** The rows whose key no earlier row has, in order. *)
Fixpoint first_per_key (key : list cell → list cell) (seen : list (list cell))
  (rs : list (list cell)) : list (list cell) :=
  match rs with
  | [] => []
  | r :: rs' =>
      if bool_decide (key r ∈ seen) then first_per_key key seen rs'
      else r :: first_per_key key (key r :: seen) rs'
  end.

(** *** Durability

    [insertRow] runs its statement through [engine.execute], which takes a
    connection of its own and commits the statement at once; the bulk
    copies go through the cursor of the session's connection and stay in
    the session's transaction until [session.commit()].  [durable_from]
    reads off a trace the writes that are durable at its end, given the
    copies pending at its start. *)
Definition is_engine_insert (e : Event) : bool :=
  match e with EvEngineInsert _ _ => true | _ => false end.

Definition is_bulk_copy (e : Event) : bool :=
  match e with EvCopyFrom _ _ _ => true | _ => false end.



(** The rows a run handed to the bulk copies for table [t], in order. *)
Definition added (t : string) (w w' : World) : list BulkRow :=
  drop (length (table t (store w))) (table t (store w')).

(** The first of the given files that [read_csv] cannot read with the
    comma. *)
Definition first_unreadable (env : Env) (fs : list string) : option string :=
  List.find (λ f, bool_decide (read_csv env f "," = None)) fs.

(** The errors a run logged, in order. *)
Definition logged_errors (evs : list Event) : list string :=
  flat_map (λ e, match e with EvLogError m => [m] | _ => [] end) evs.

(** The files a run looked up on disk, in order. *)
Definition checked_files (evs : list Event) : list string :=
  flat_map (λ e, match e with EvIsFile f => [f] | _ => [] end) evs.

(** The number of rows of each bulk copy a run issued, in order. *)
Definition copy_sizes (evs : list Event) : list nat :=
  flat_map (λ e, match e with EvCopyFrom _ _ n => [n] | _ => [] end) evs.

(** ** Fixtures

    A small file system in the shape of the H&M data set the module's
    [__main__] block loads, used to run the methods on concrete input. *)

Module Fixtures.

Definition int (n : Z) : cell := Some (VInt n).
Definition str (s : string) : cell := Some (VStr s).

(** Three articles, one without a colour. *)
Definition articles : DataFrame :=
  {| columns := ["article_id"; "product_code"; "colour"];
     rows := [[int 1; int 100; str "red"];
              [int 2; int 200; None];
              [int 3; int 300; str "blue"]] |}.

(** Two rows for the same article id. *)
Definition articles_repeated : DataFrame :=
  {| columns := ["article_id"; "colour"];
     rows := [[int 1; str "red"]; [int 1; str "blue"]] |}.

(** A header without the identity column. *)
Definition articles_no_id : DataFrame :=
  {| columns := ["product_code"; "colour"];
     rows := [[int 100; str "red"]] |}.

(** What a comma parse makes of a file written with semicolons. *)
Definition articles_unsplit : DataFrame :=
  {| columns := ["article_id;product_code;colour"];
     rows := [[str "1;100;red"]; [str "2;200;"]; [str "3;300;blue"]] |}.

Definition customers : DataFrame :=
  {| columns := ["customer_id"; "age"];
     rows := [[int 10; int 25]; [int 11; None]] |}.

(** Five purchases; the fourth repeats the second, and every row carries
    the extra column [channel]. *)
Definition purchases : DataFrame :=
  {| columns := ["t_dat"; "customer_id"; "article_id"; "price"; "channel"];
     rows := [[str "2020-01-01"; int 10; int 1; str "9.99"; int 1];
              [str "2020-01-02"; int 10; int 2; str "19.99"; int 2];
              [str "2020-01-02"; int 11; int 2; str "19.99"; int 2];
              [str "2020-01-02"; int 10; int 2; str "19.99"; int 2];
              [str "2020-01-03"; int 11; int 3; str "4.50"; int 1]] |}.

Definition purchases_no_price : DataFrame :=
  {| columns := ["t_dat"; "customer_id"; "article_id"];
     rows := [[str "2020-01-01"; int 10; int 1]] |}.

(** A purchase file that brings its own [dataset_name] column. *)
Definition purchases_named : DataFrame :=
  {| columns := ["dataset_name"; "t_dat"; "customer_id"; "article_id"; "price"];
     rows := [[str "old"; str "2020-01-01"; int 10; int 1; str "9.99"]] |}.

Definition files (filename sep : string) : option DataFrame :=
  if bool_decide (filename = "articles.csv") then
    if bool_decide (sep = ",") then Some articles else None
  else if bool_decide (filename = "articles_repeated.csv") then
    if bool_decide (sep = ",") then Some articles_repeated else None
  else if bool_decide (filename = "articles_no_id.csv") then
    if bool_decide (sep = ",") then Some articles_no_id else None
  else if bool_decide (filename = "articles_semicolon.csv") then
    if bool_decide (sep = ";") then Some articles
    else if bool_decide (sep = ",") then Some articles_unsplit else None
  else if bool_decide (filename = "customers.csv") then
    if bool_decide (sep = ",") then Some customers else None
  else if bool_decide (filename = "purchases.csv") then
    if bool_decide (sep = ",") then Some purchases else None
  else if bool_decide (filename = "purchases_no_price.csv") then
    if bool_decide (sep = ",") then Some purchases_no_price else None
  else if bool_decide (filename = "purchases_named.csv") then
    if bool_decide (sep = ",") then Some purchases_named else None
  else None.

Definition disk : Env :=
  {| is_file := λ f, bool_decide (is_Some (files f ","));
     read_csv := files;
     time := λ n, (3500000 * Z.of_nat n)%Z |}.

Definition empty_store : Store := {| dataset := []; relations := ∅ |}.

Definition fresh : World :=
  {| store := empty_store; trace := []; clock_reads := 0 |}.

(** The world after a first ingestion of ["H_M"]. *)
Definition loaded : World :=
  (addDataset disk "H_M" "mosh" "purchases.csv" "articles.csv"
     "customers.csv" fresh).2.

(** A customer file that has a header and no data row. *)
Definition customers_header_only : DataFrame :=
  {| columns := ["customer_id"; "age"; "postal_code"]; rows := [] |}.

(** The same disk with the header-only file added. *)
Definition disk_with_empty : Env :=
  {| is_file := λ f, bool_decide (f = "customers_empty.csv") || is_file disk f;
     read_csv := λ f sep,
       if bool_decide (f = "customers_empty.csv") then
         if bool_decide (sep = ",") then Some customers_header_only else None
       else files f sep;
     time := time disk |}.

(** The colour row of article 1 as the attribute load writes it. *)
Definition colour_of_article_1 : BulkRow :=
  {| target_columns :=
       Some ["article_id"; "dataset_name"; "attribute"; "value"; "type"];
     fields := [int 1; str "H_M"; str "colour"; str "red"; int 0] |}.

(** Two configurations for the same user and database on different hosts. *)
Definition config_local (filename section : string)
  : Connection.Error + gmap string string :=
  inr (<["user" := "mosh"]> (<["dbname" := "ppdb"]>
        (<["host" := "localhost"]> ∅))).

Definition config_remote (filename section : string)
  : Connection.Error + gmap string string :=
  inr (<["user" := "mosh"]> (<["dbname" := "ppdb"]>
        (<["host" := "db.example.org"]> (<["password" := "secret"]> ∅)))).

(** A library whose engines are their URLs. *)
Definition sqla : Connection.Sqla :=
  {| Connection.E := string; Connection.C := string;
     Connection.configDatabase := config_local;
     Connection.create_engine := λ url mode, inr url;
     Connection.engine_connect := λ h, inr h;
     Connection.server_version := λ h, inr "PostgreSQL 14.2" |}.

(** A loader whose [start_insert] rejects its input; the object counts the
    calls it received. *)
Definition rejecting_loader : Tasks.InsertDatasetClass :=
  {| Tasks.Obj := nat;
     Tasks.init := λ _ _ _, inr 0;
     Tasks.start_insert := λ n, (Some (Tasks.mkErr Tasks.ValueError "bad column"), S n);
     Tasks.abort := λ n, (None, S n);
     Tasks.cleanup := λ n, (None, S n) |}.

Definition project_root (path : string) : string := "/srv/app/" +:+ path.

(** Five purchases with the four required columns only; the fourth is the
    second once more. *)
Definition purchases_exact : DataFrame :=
  {| columns := ["customer_id"; "article_id"; "price"; "t_dat"];
     rows := [[int 10; int 1; str "9.99"; str "2020-01-01"];
              [int 10; int 2; str "19.99"; str "2020-01-02"];
              [int 11; int 2; str "19.99"; str "2020-01-02"];
              [int 10; int 2; str "19.99"; str "2020-01-02"];
              [int 11; int 3; str "4.50"; str "2020-01-03"]] |}.

(** Five purchases of which the fourth has the customer, article and date
    of the second at another price, and the fifth the customer and article
    of the second on another date. *)
Definition purchases_keyed : DataFrame :=
  {| columns := ["customer_id"; "article_id"; "price"; "t_dat"];
     rows := [[int 10; int 1; str "9.99"; str "2020-01-01"];
              [int 10; int 2; str "19.99"; str "2020-01-02"];
              [int 11; int 2; str "19.99"; str "2020-01-02"];
              [int 10; int 2; str "17.50"; str "2020-01-02"];
              [int 10; int 2; str "19.99"; str "2020-01-03"]] |}.

(** Three purchases of one customer and article on three dates. *)
Definition purchases_distinct : DataFrame :=
  {| columns := ["t_dat"; "customer_id"; "article_id"; "price"];
     rows := [[str "2020-01-01"; int 10; int 1; str "9.99"];
              [str "2020-01-02"; int 10; int 1; str "9.99"];
              [str "2020-01-03"; int 10; int 1; str "9.99"]] |}.

Definition purchase_disk : Env :=
  {| is_file := λ f, true;
     read_csv := λ f sep,
       if negb (bool_decide (sep = ",")) then None
       else if bool_decide (f = "purchases_exact.csv") then Some purchases_exact
       else if bool_decide (f = "purchases_keyed.csv") then Some purchases_keyed
       else if bool_decide (f = "purchases_distinct.csv")
            then Some purchases_distinct
       else files f sep;
     time := time disk |}.

(** A loader whose [start_insert] rejects its input and whose [abort] fails
    in turn. *)
Definition stuck_loader : Tasks.InsertDatasetClass :=
  {| Tasks.Obj := nat;
     Tasks.init := λ _ _ _, inr 0;
     Tasks.start_insert := λ n,
       (Some (Tasks.mkErr Tasks.ValueError "bad column"), S n);
     Tasks.abort := λ n,
       (Some (Tasks.mkErr Tasks.OtherException "rollback failed"), S n);
     Tasks.cleanup := λ n, (None, S n) |}.

(** A loader that inserts well and cannot release its connection. *)
Definition leaky_loader : Tasks.InsertDatasetClass :=
  {| Tasks.Obj := nat;
     Tasks.init := λ _ _ _, inr 0;
     Tasks.start_insert := λ n, (None, S n);
     Tasks.abort := λ n, (None, S n);
     Tasks.cleanup := λ n,
       (Some (Tasks.mkErr Tasks.OtherException "pool closed"), S n) |}.

End Fixtures.

(** ** What a run of each method amounts to

    Every method leaves the world it started in with a new store and some
    more events; the clock moves only in [addDataset].  The summaries below
    give the outcome, the store and the events of each method as plain
    functions, and the [_run] lemmas show that the methods compute them. *)

Section Effects.

Variable env : Env.

Definition after (w : World) (s : Store) (evs : list Event) : World :=
  {| store := s; trace := trace w ++ evs; clock_reads := clock_reads w |}.

Definition tick (w : World) : World :=
  {| store := store w; trace := trace w ++ [EvTime];
     clock_reads := S (clock_reads w) |}.

Definition copy_store (df : DataFrame) (tbl : string)
  (cols : option (list string)) (s : Store) : Store :=
  {| dataset := dataset s;
     relations := <[tbl := table tbl s ++ map (mkBulk cols) (rows df)]>
                    (relations s) |}.

Definition copy_event (df : DataFrame) (tbl : string)
  (cols : option (list string)) : Event :=
  EvCopyFrom tbl cols (length (rows df)).

Definition registered (n : string) (s : Store) : bool :=
  bool_decide (is_Some (List.find (λ r, bool_decide (name r = n)) (dataset s))).

Definition entry_store (n up : string) (s : Store) : Store :=
  if registered n s then s
  else {| dataset := dataset s ++ [mkDataset n up];
          relations := relations s |}.

Definition entry_events (n up : string) (s : Store) : list Event :=
  if registered n s
  then [EvQuery "dataset" n; EvLogError (already_exists_msg n)]
  else [EvQuery "dataset" n; EvEngineInsert "dataset" (mkDataset n up)].

Definition attribute_step (dn k : string) (df : DataFrame) (a : string)
  (s : Store) : Store :=
  if bool_decide (a = id_column k) then s
  else
    let t := meta_data_attribute_table dn k df a in
    copy_store t (attribute_table k) (Some (columns t)) s.

Definition attribute_events (dn k : string) (df : DataFrame) (a : string)
  : list Event :=
  if bool_decide (a = id_column k) then []
  else
    let t := meta_data_attribute_table dn k df a in
    [copy_event t (attribute_table k) (Some (columns t))].

Definition meta_outcome (f k : string) : Outcome bool :=
  match read_csv env f "," with
  | None => Raised (ReadError f)
  | Some df => Returned (bool_decide (id_column k ∈ columns df))
  end.

Definition meta_store (dn f k : string) (s : Store) : Store :=
  match read_csv env f "," with
  | None => s
  | Some df =>
      if bool_decide (id_column k ∈ columns df) then
        fold_left (λ s a, attribute_step dn k df a s) (columns df)
          (copy_store (meta_data_table dn k df) k None s)
      else s
  end.

Definition meta_events (dn f k : string) : list Event :=
  [EvReflect; EvCursor; EvReadCsv f ","] ++
  match read_csv env f "," with
  | None => []
  | Some df =>
      if bool_decide (id_column k ∈ columns df) then
        copy_event (meta_data_table dn k df) k None
          :: flat_map (attribute_events dn k df) (columns df)
      else [EvLogError (missing_column_msg (id_column k) dn)]
  end.

Definition required_columns : list string :=
  ["customer_id"; "article_id"; "price"; "t_dat"].

(** The first required column that the header lacks, in the order of the
    [if]/[elif] chain. *)
Definition first_missing (cols : list string) : option string :=
  List.find (λ c, bool_decide (c ∉ cols)) required_columns.

Definition purchase_outcome (f : string) : Outcome bool :=
  match read_csv env f "," with
  | None => Raised (ReadError f)
  | Some df => Returned (bool_decide (first_missing (columns df) = None))
  end.

Definition purchase_store (dn f : string) (s : Store) : Store :=
  match read_csv env f "," with
  | None => s
  | Some df =>
      match first_missing (columns df) with
      | Some _ => s
      | None =>
          let t := purchase_data_table dn df in
          copy_store t "purchase" (Some (columns t)) s
      end
  end.

Definition purchase_events (dn f : string) : list Event :=
  [EvReflect; EvCursor; EvReadCsv f ","] ++
  match read_csv env f "," with
  | None => []
  | Some df =>
      match first_missing (columns df) with
      | Some c => [EvLogError (missing_column_msg c dn)]
      | None =>
          let t := purchase_data_table dn df in
          [copy_event t "purchase" (Some (columns t))]
      end
  end.

Definition check_events (filenames : list string) : list Event :=
  flat_map (λ f, EvIsFile f ::
                 if is_file env f then [] else [EvLogError (not_found_msg f)])
    filenames.

(** The three loads in the order of [addDataset]; a load that raises ends
    the run, a load that returns (true or false) lets the next one start. *)
Definition loads_outcome (p a c : string) : Outcome unit :=
  match meta_outcome a "article" with
  | Raised e => Raised e
  | Returned _ =>
      match meta_outcome c "customer" with
      | Raised e => Raised e
      | Returned _ =>
          match purchase_outcome p with
          | Raised e => Raised e
          | Returned _ => Returned ()
          end
      end
  end.

Definition loads_store (dn p a c : string) (s : Store) : Store :=
  let s1 := meta_store dn a "article" s in
  match meta_outcome a "article" with
  | Raised _ => s1
  | Returned _ =>
      let s2 := meta_store dn c "customer" s1 in
      match meta_outcome c "customer" with
      | Raised _ => s2
      | Returned _ => purchase_store dn p s2
      end
  end.

Definition loads_events (dn p a c : string) : list Event :=
  meta_events dn a "article" ++
  match meta_outcome a "article" with
  | Raised _ => []
  | Returned _ =>
      meta_events dn c "customer" ++
      match meta_outcome c "customer" with
      | Raised _ => []
      | Returned _ => purchase_events dn p
      end
  end.

Definition closing_events (dn : string) (n : nat) : list Event :=
  [EvCommit; EvTime; EvLog (added_msg dn (time env n) (time env (S n)))].

Definition ingest_outcome (dn p a c : string) (s : Store)
  : Outcome (option bool) :=
  if registered dn s then Returned (Some false)
  else match loads_outcome p a c with
       | Raised e => Raised e
       | Returned _ => Returned None
       end.

Definition ingest_store (dn up p a c : string) (s : Store) : Store :=
  if registered dn s then s
  else loads_store dn p a c (entry_store dn up s).

Definition ingest_events (dn up p a c : string) (s : Store) (n : nat)
  : list Event :=
  [EvReflect; EvLog (adding_msg dn)] ++ entry_events dn up s ++
  if registered dn s then []
  else
    check_events [p; a; c] ++ [EvTime] ++ loads_events dn p a c ++
    match loads_outcome p a c with
    | Raised _ => []
    | Returned _ => closing_events dn n
    end.

Definition ingest_clock (dn p a c : string) (s : Store) (n : nat) : nat :=
  if registered dn s then n
  else match loads_outcome p a c with
       | Raised _ => S n
       | Returned _ => S (S n)
       end.

(** The events of [addDataset] up to, and without, the closing commit. *)
Definition ingest_body (dn up p a c : string) (s : Store) : list Event :=
  [EvReflect; EvLog (adding_msg dn)] ++ entry_events dn up s ++
  if registered dn s then []
  else check_events [p; a; c] ++ [EvTime] ++ loads_events dn p a c.

(** Two worlds built from the same pieces are equal once their traces
    are re-associated. *)
Lemma same_world {A} (o : Outcome A) s t t' n :
  t = t' → (o, mkWorld s t n) = (o, mkWorld s t' n).
Proof. by intros ->. Qed.

Ltac world_eq :=
  unfold after, tick; cbn [store trace clock_reads];
  apply same_world; rewrite <- ?app_assoc, ?app_nil_r; cbn [app];
  rewrite <- ?app_assoc, ?app_nil_r; reflexivity.

Lemma after_id w : after w (store w) [] = w.
Proof. destruct w; unfold after; simpl. by rewrite app_nil_r. Qed.

Lemma store_after w s evs : store (after w s evs) = s.
Proof. reflexivity. Qed.

Lemma after_after w s evs s' evs' :
  after (after w s evs) s' evs' = after w s' (evs ++ evs').
Proof. unfold after; simpl. by rewrite app_assoc. Qed.

Lemma bind_run {A B} (m : M A) (f : A → M B) w a w' :
  m w = (Returned a, w') → (m ≫= f) w = f a w'.
Proof. intros H. unfold mbind, M_bind. by rewrite H. Qed.

Lemma bind_raise {A B} (m : M A) (f : A → M B) w e w' :
  m w = (Raised e, w') → (m ≫= f) w = (Raised e, w').
Proof. intros H. unfold mbind, M_bind. by rewrite H. Qed.

Lemma emit_run e w : emit e w = (Returned (), after w (store w) [e]).
Proof. reflexivity. Qed.

Lemma copy_from_run df tbl cols w :
  copy_from df tbl cols w
  = (Returned (), after w (copy_store df tbl cols (store w))
                    [copy_event df tbl cols]).
Proof. reflexivity. Qed.

Lemma for_each_run {A} (body : A → M unit) (st : A → Store → Store)
  (ev : A → list Event) (l : list A) :
  (∀ x w, body x w = (Returned (), after w (st x (store w)) (ev x))) →
  ∀ w, for_each l body w
       = (Returned (),
          after w (fold_left (λ s x, st x s) l (store w)) (flat_map ev l)).
Proof.
  intros Hbody. induction l as [|x l IH]; intros w; simpl.
  - by rewrite after_id.
  - erewrite bind_run by apply Hbody.
    rewrite IH, after_after. reflexivity.
Qed.

Lemma registered_spec n s : registered n s = true ↔ n ∈ map name (dataset s).
Proof.
  unfold registered. rewrite bool_decide_eq_true.
  induction (dataset s) as [|r l IH]; simpl.
  - split; [intros [x Hx]; discriminate | intros H; inversion H].
  - case_bool_decide as Hn.
    + split; [intros _; subst; left | eauto].
    + rewrite IH. split; [by right|].
      intros H. inversion H; subst; [done | assumption].
Qed.

Lemma addDatasetEntry_run n up w :
  __addDatasetEntry n up w
  = (Returned (negb (registered n (store w))),
     after w (entry_store n up (store w)) (entry_events n up (store w))).
Proof.
  unfold __addDatasetEntry, entry_store, entry_events, registered.
  unfold queryTable_first, get_store, mbind, M_bind, mret, M_ret; simpl.
  destruct (bool_decide _); simpl; unfold after; simpl;
    by rewrite <- app_assoc.
Qed.

Lemma addMetaDataset_run dn f k w :
  __addMetaDataset env dn f k w
  = (meta_outcome f k, after w (meta_store dn f k (store w)) (meta_events dn f k)).
Proof.
  unfold __addMetaDataset, meta_outcome, meta_store, meta_events, pd_read_csv.
  unfold reflect, session_cursor, Logger_logError.
  erewrite bind_run by apply emit_run.
  erewrite bind_run by apply emit_run.
  destruct (read_csv env f ",") as [df|] eqn:Hread.
  - erewrite bind_run; last first.
    { erewrite bind_run by apply emit_run. reflexivity. }
    rewrite !after_after. simpl.
    case_bool_decide as Hid; case_bool_decide as Hid'; try tauto.
    + erewrite bind_run by apply emit_run.
      unfold mret, M_ret. by rewrite after_after.
    + erewrite bind_run by apply copy_from_run.
      erewrite bind_run; last first.
      { apply (for_each_run _ (attribute_step dn k df) (attribute_events dn k df)).
        intros a w0. unfold attribute_step, attribute_events.
        case_bool_decide; [unfold mret, M_ret; by rewrite after_id |].
        apply copy_from_run. }
      unfold mret, M_ret. by rewrite !after_after.
  - erewrite bind_raise; last first.
    { erewrite bind_run by apply emit_run. reflexivity. }
    by rewrite !after_after.
Qed.

Lemma addPurchasesDataset_run dn f w :
  __addPurchasesDataset env dn f w
  = (purchase_outcome f,
     after w (purchase_store dn f (store w)) (purchase_events dn f)).
Proof.
  unfold __addPurchasesDataset, purchase_outcome, purchase_store,
    purchase_events, pd_read_csv, first_missing, required_columns.
  unfold reflect, session_cursor, Logger_logError.
  erewrite bind_run by apply emit_run.
  erewrite bind_run by apply emit_run.
  destruct (read_csv env f ",") as [df|] eqn:Hread.
  - erewrite bind_run; last first.
    { erewrite bind_run by apply emit_run. reflexivity. }
    rewrite !after_after. simpl.
    repeat (case_bool_decide; simpl;
      [erewrite bind_run by apply emit_run;
       unfold mret, M_ret; by rewrite after_after |]).
    erewrite bind_run by apply copy_from_run.
    unfold mret, M_ret. by rewrite !after_after.
  - erewrite bind_raise; last first.
    { erewrite bind_run by apply emit_run. reflexivity. }
    by rewrite !after_after.
Qed.

Lemma check_files_run filenames w :
  check_files env filenames w
  = (Returned (), after w (store w) (check_events filenames)).
Proof.
  unfold check_files, check_events.
  rewrite (for_each_run _ (λ _ s, s)
    (λ f, EvIsFile f ::
          if is_file env f then [] else [EvLogError (not_found_msg f)])).
  - f_equal. f_equal. by induction filenames.
  - intros f w0. unfold Path_is_file.
    erewrite bind_run; last first.
    { erewrite bind_run by apply emit_run. reflexivity. }
    destruct (is_file env f); simpl; unfold mret, M_ret, Logger_logError;
      [done | by rewrite emit_run, after_after].
Qed.

Lemma time_time_run w :
  time_time env w = (Returned (time env (clock_reads w)), tick w).
Proof. reflexivity. Qed.

Lemma addDataset_run dn up p a c w :
  addDataset env dn up p a c w
  = (ingest_outcome dn p a c (store w),
     {| store := ingest_store dn up p a c (store w);
        trace := trace w ++ ingest_events dn up p a c (store w) (clock_reads w);
        clock_reads := ingest_clock dn p a c (store w) (clock_reads w) |}).
Proof.
  unfold addDataset, ingest_outcome, ingest_store, ingest_events,
    ingest_clock, reflect, Logger_log, session_commit.
  erewrite bind_run by apply emit_run.
  erewrite bind_run by apply emit_run.
  erewrite bind_run by apply addDatasetEntry_run.
  rewrite !after_after, !store_after.
  destruct (registered dn (store w)) eqn:Hreg; cbn [negb].
  { unfold mret, M_ret, entry_store. rewrite Hreg. world_eq. }
  erewrite bind_run by apply check_files_run.
  erewrite bind_run by apply time_time_run.
  unfold loads_outcome, loads_store, loads_events, closing_events.
  unfold mbind at 1. unfold M_bind at 1. rewrite addMetaDataset_run.
  destruct (meta_outcome a "article") as [ba|ea]; [|world_eq].
  unfold mbind at 1. unfold M_bind at 1. rewrite addMetaDataset_run.
  destruct (meta_outcome c "customer") as [bc|ec]; [|world_eq].
  unfold mbind at 1. unfold M_bind at 1. rewrite addPurchasesDataset_run.
  destruct (purchase_outcome p) as [bp|ep]; [|world_eq].
  erewrite bind_run by apply emit_run.
  erewrite bind_run by apply time_time_run.
  erewrite bind_run by apply emit_run.
  unfold mret, M_ret. world_eq.
Qed.

End Effects.

(** ** Registration and early abort *)

Section Registration.

Variable env : Env.

(** C1. When the dataset name is already in the [dataset] table,
    [__addDatasetEntry] queries, logs the error and returns false without
    touching the store, and [addDataset] returns [False] right after it:
    its whole effect is the reflection, the two log lines and the query,
    so no file is checked or read, nothing is copied, nothing is committed
    and the store is the one it started with. *)
Theorem addDataset_existing_name_aborts dn up p a c w :
  dn ∈ map name (dataset (store w)) →
  __addDatasetEntry dn up w
    = (Returned false,
       after w (store w)
         [EvQuery "dataset" dn; EvLogError (already_exists_msg dn)])
  ∧ addDataset env dn up p a c w
    = (Returned (Some false),
       after w (store w)
         [EvReflect; EvLog (adding_msg dn);
          EvQuery "dataset" dn; EvLogError (already_exists_msg dn)]).
Proof.
  intros Hin. apply registered_spec in Hin. split.
  - rewrite addDatasetEntry_run.
    unfold entry_store, entry_events. by rewrite Hin.
  - rewrite addDataset_run.
    unfold ingest_outcome, ingest_store, ingest_events, ingest_clock,
      entry_events, after.
    by rewrite Hin.
Qed.

End Registration.

Lemma addDataset_existing_name_aborts_witness :
  "H_M" ∈ map name (dataset (store Fixtures.loaded))
  ∧ addDataset Fixtures.disk "H_M" "mosh" "purchases.csv" "articles.csv"
      "customers.csv" Fixtures.loaded
    = (Returned (Some false),
       after Fixtures.loaded (store Fixtures.loaded)
         [EvReflect; EvLog (adding_msg "H_M");
          EvQuery "dataset" "H_M"; EvLogError (already_exists_msg "H_M")]).
Proof.
  assert (H : "H_M" ∈ map name (dataset (store Fixtures.loaded)))
    by compute_done.
  split; [exact H|].
  exact (proj2 (addDataset_existing_name_aborts Fixtures.disk "H_M" "mosh"
                  "purchases.csv" "articles.csv" "customers.csv"
                  Fixtures.loaded H)).
Defined.

(** ** Missing columns *)

Section MissingColumns.

Variable env : Env.

(** C6. When the header of the metadata CSV lacks [<kind>_id],
    [__addMetaDataset] logs that this column could not be found in the
    dataset and returns false; the store is the one it started with, so
    neither the identity table nor the attribute table receives a row. *)
Theorem addMetaDataset_missing_id dn f k df w :
  read_csv env f "," = Some df →
  id_column k ∉ columns df →
  __addMetaDataset env dn f k w
  = (Returned false,
     after w (store w)
       [EvReflect; EvCursor; EvReadCsv f ",";
        EvLogError (missing_column_msg (id_column k) dn)]).
Proof.
  intros Hread Hid. rewrite addMetaDataset_run.
  unfold meta_outcome, meta_store, meta_events. rewrite Hread.
  by rewrite bool_decide_eq_false_2.
Qed.

Lemma first_missing_some cols :
  (∃ c, c ∈ required_columns ∧ c ∉ cols) →
  ∃ c, first_missing cols = Some c ∧ c ∈ required_columns ∧ c ∉ cols.
Proof.
  intros (c & Hc & Hn). unfold first_missing.
  destruct (List.find _ required_columns) as [c'|] eqn:Hfind.
  - apply find_some in Hfind as [Hin Hdec].
    exists c'. split; [done|]. split.
    + by apply list_elem_of_In.
    + by apply bool_decide_eq_true in Hdec.
  - exfalso. apply list_elem_of_In in Hc.
    pose proof (find_none _ _ Hfind c Hc) as Hdec. simpl in Hdec.
    by apply bool_decide_eq_false in Hdec.
Qed.

Lemma first_missing_none cols :
  first_missing cols = None ↔ ∀ c, c ∈ required_columns → c ∈ cols.
Proof.
  unfold first_missing. split.
  - intros Hfind c Hc. apply list_elem_of_In in Hc.
    pose proof (find_none _ _ Hfind c Hc) as Hdec. simpl in Hdec.
    apply bool_decide_eq_false in Hdec.
    destruct (decide (c ∈ cols)); [done | tauto].
  - intros Hall.
    destruct (List.find _ required_columns) as [c'|] eqn:Hfind; [|done].
    apply find_some in Hfind as [Hin Hdec].
    apply bool_decide_eq_true in Hdec. apply list_elem_of_In in Hin.
    by specialize (Hall c' Hin).
Qed.

(** C7. When the header of the purchase CSV lacks one of [customer_id],
    [article_id], [price] and [t_dat], [__addPurchasesDataset] logs one
    error that names a required column the header lacks (the first one in
    that order) and returns false; the store is the one it started with, so
    no purchase row is written. *)
Theorem addPurchasesDataset_missing_column dn f df w :
  read_csv env f "," = Some df →
  (∃ c, c ∈ required_columns ∧ c ∉ columns df) →
  ∃ c, c ∈ required_columns ∧ (c ∉ columns df)
    ∧ first_missing (columns df) = Some c
    ∧ __addPurchasesDataset env dn f w
      = (Returned false,
         after w (store w)
           [EvReflect; EvCursor; EvReadCsv f ",";
            EvLogError (missing_column_msg c dn)]).
Proof.
  intros Hread Hmiss.
  destruct (first_missing_some _ Hmiss) as (c & Hfirst & Hc & Hn).
  exists c. repeat split; try done.
  rewrite addPurchasesDataset_run.
  unfold purchase_outcome, purchase_store, purchase_events.
  by rewrite Hread, Hfirst.
Qed.

End MissingColumns.

Lemma addMetaDataset_missing_id_witness :
  read_csv Fixtures.disk "articles_no_id.csv" "," = Some Fixtures.articles_no_id
  ∧ (id_column "article" ∉ columns Fixtures.articles_no_id)
  ∧ __addMetaDataset Fixtures.disk "H_M" "articles_no_id.csv" "article"
      Fixtures.fresh
    = (Returned false,
       after Fixtures.fresh (store Fixtures.fresh)
         [EvReflect; EvCursor; EvReadCsv "articles_no_id.csv" ",";
          EvLogError (missing_column_msg (id_column "article") "H_M")]).
Proof.
  assert (Hread : read_csv Fixtures.disk "articles_no_id.csv" ","
                  = Some Fixtures.articles_no_id) by reflexivity.
  assert (Hid : id_column "article" ∉ columns Fixtures.articles_no_id)
    by compute_done.
  split; [exact Hread|]. split; [exact Hid|].
  exact (addMetaDataset_missing_id Fixtures.disk "H_M" "articles_no_id.csv"
           "article" Fixtures.articles_no_id Fixtures.fresh Hread Hid).
Defined.

Lemma addPurchasesDataset_missing_column_witness :
  read_csv Fixtures.disk "purchases_no_price.csv" ","
    = Some Fixtures.purchases_no_price
  ∧ ∃ c, c ∈ required_columns ∧ (c ∉ columns Fixtures.purchases_no_price)
      ∧ first_missing (columns Fixtures.purchases_no_price) = Some c
      ∧ __addPurchasesDataset Fixtures.disk "H_M" "purchases_no_price.csv"
          Fixtures.fresh
        = (Returned false,
           after Fixtures.fresh (store Fixtures.fresh)
             [EvReflect; EvCursor; EvReadCsv "purchases_no_price.csv" ",";
              EvLogError (missing_column_msg c "H_M")]).
Proof.
  assert (Hread : read_csv Fixtures.disk "purchases_no_price.csv" ","
                  = Some Fixtures.purchases_no_price) by reflexivity.
  assert (Hmiss : ∃ c, c ∈ required_columns
                       ∧ c ∉ columns Fixtures.purchases_no_price).
  { exists "price". split; compute_done. }
  split; [exact Hread|].
  exact (addPurchasesDataset_missing_column Fixtures.disk "H_M"
           "purchases_no_price.csv" Fixtures.purchases_no_price Fixtures.fresh
           Hread Hmiss).
Defined.

(** ** The coordinator: commit, order of the steps, delimiter *)

Section Coordinator.

Variable env : Env.

Lemma emitted_app w s evs n :
  emitted w {| store := s; trace := trace w ++ evs; clock_reads := n |} = evs.
Proof. unfold emitted; simpl. by rewrite drop_app_length. Qed.

Lemma commits_app evs evs' : commits (evs ++ evs') = commits evs + commits evs'.
Proof. unfold commits. by rewrite filter_app, length_app. Qed.


Lemma body_commits evs : Forall body_event evs → commits evs = 0.
Proof.
  unfold commits. induction 1 as [|e evs He _ IH]; [done|].
  rewrite filter_cons. destruct (decide (e = EvCommit)) as [->|]; [done|].
  exact IH.
Qed.

Lemma entry_events_body dn up s : Forall body_event (entry_events dn up s).
Proof.
  unfold entry_events. destruct (registered dn s); repeat constructor.
Qed.

Lemma check_events_body fs : Forall body_event (check_events env fs).
Proof.
  unfold check_events. induction fs as [|f fs IH]; simpl; [constructor|].
  constructor; [exact I|]. apply Forall_app. split; [|exact IH].
  destruct (is_file env f); repeat constructor.
Qed.

Lemma meta_events_body dn f k : Forall body_event (meta_events env dn f k).
Proof.
  unfold meta_events. apply Forall_app. split; [by repeat constructor|].
  destruct (read_csv env f ",") as [df|]; [|constructor].
  case_bool_decide as Hid; [|by repeat constructor]. clear Hid.
  constructor; [exact I|].
  induction (columns df) as [|a l IH]; simpl; [constructor|].
  apply Forall_app. split; [|exact IH].
  unfold attribute_events. case_bool_decide; by repeat constructor.
Qed.

Lemma purchase_events_body dn f : Forall body_event (purchase_events env dn f).
Proof.
  unfold purchase_events. apply Forall_app. split; [by repeat constructor|].
  destruct (read_csv env f ",") as [df|]; [|constructor].
  destruct (first_missing (columns df)); by repeat constructor.
Qed.

Lemma loads_events_body dn p a c : Forall body_event (loads_events env dn p a c).
Proof.
  unfold loads_events. apply Forall_app. split; [apply meta_events_body|].
  destruct (meta_outcome env a "article"); [|constructor].
  apply Forall_app. split; [apply meta_events_body|].
  destruct (meta_outcome env c "customer"); [|constructor].
  apply purchase_events_body.
Qed.

Lemma ingest_body_body dn up p a c s :
  Forall body_event (ingest_body env dn up p a c s).
Proof.
  unfold ingest_body. apply Forall_app. split; [by repeat constructor|].
  apply Forall_app. split; [apply entry_events_body|].
  destruct (registered dn s); [constructor|].
  apply Forall_app. split; [apply check_events_body|].
  apply Forall_app. split; [by repeat constructor | apply loads_events_body].
Qed.

Lemma ingest_events_split dn up p a c s n :
  ingest_events env dn up p a c s n
  = ingest_body env dn up p a c s ++
    match ingest_outcome env dn p a c s with
    | Returned None => closing_events env dn n
    | _ => []
    end.
Proof.
  unfold ingest_events, ingest_body, ingest_outcome.
  destruct (registered dn s).
  - by rewrite !app_nil_r.
  - rewrite <- !app_assoc. simpl. do 4 f_equal.
    rewrite <- !app_assoc. do 2 f_equal.
    destruct (loads_outcome env p a c); by rewrite ?app_nil_r.
Qed.

Lemma loads_outcome_returned p a c :
  (∃ u, loads_outcome env p a c = Returned u)
  ↔ is_Some (read_csv env a ",") ∧ is_Some (read_csv env c ",")
    ∧ is_Some (read_csv env p ",").
Proof.
  unfold loads_outcome, meta_outcome, purchase_outcome.
  destruct (read_csv env a ","), (read_csv env c ","), (read_csv env p ",");
    split; try (intros [u Hu]; discriminate);
    try (intros (H1 & H2 & H3); by (inversion H1 || inversion H2 || inversion H3));
    eauto.
Qed.

Lemma ingest_outcome_completes dn p a c s :
  ingest_outcome env dn p a c s = Returned None
  ↔ (dn ∉ map name (dataset s))
    ∧ is_Some (read_csv env a ",") ∧ is_Some (read_csv env c ",")
    ∧ is_Some (read_csv env p ",").
Proof.
  unfold ingest_outcome. rewrite <- loads_outcome_returned.
  rewrite <- (registered_spec dn s).
  destruct (registered dn s).
  - split; [discriminate | intros [H _]; by destruct H].
  - destruct (loads_outcome env p a c) as [u|e].
    + split; [intros _; split; [discriminate | by exists u] | done].
    + split; [discriminate | intros [_ [u Hu]]; discriminate].
Qed.

End Coordinator.

(** C8. For a new name and three readable files the steps of [addDataset]
    run one after the other, each in the world its predecessor left:
    reflection and registration, the check of the three files (which only
    logs the missing ones whatever [is_file] answers), the article load,
    the customer load, the purchase load, and then the commit with the
    closing log line.  The value a load returns is ignored: the customer
    load and the purchase load run after an article load that returned
    false just as after one that returned true. *)
Theorem addDataset_step_order (env : Env) dn up p a c dfa dfc dfp w :
  dn ∉ map name (dataset (store w)) →
  read_csv env a "," = Some dfa →
  read_csv env c "," = Some dfc →
  read_csv env p "," = Some dfp →
  ∃ w1 w2 w3 w4 w5,
    (reflect ;; Logger_log (adding_msg dn) ;; __addDatasetEntry dn up) w
      = (Returned true, w1)
    ∧ check_files env [p; a; c] w1 = (Returned (), w2)
    ∧ __addMetaDataset env dn a "article" (tick w2)
      = (Returned (bool_decide ("article_id" ∈ columns dfa)), w3)
    ∧ __addMetaDataset env dn c "customer" w3
      = (Returned (bool_decide ("customer_id" ∈ columns dfc)), w4)
    ∧ __addPurchasesDataset env dn p w4
      = (Returned (bool_decide (first_missing (columns dfp) = None)), w5)
    ∧ addDataset env dn up p a c w
      = (Returned None,
         {| store := store w5;
            trace := trace w5 ++
              [EvCommit; EvTime;
               EvLog (added_msg dn (time env (clock_reads w2))
                        (time env (clock_reads w5)))];
            clock_reads := S (clock_reads w5) |})
    ∧ emitted w w1
      = [EvReflect; EvLog (adding_msg dn); EvQuery "dataset" dn;
         EvEngineInsert "dataset" (mkDataset dn up)]
    ∧ emitted w1 w2 = check_events env [p; a; c]
    ∧ trace w5
      = trace w ++ emitted w w1 ++ emitted w1 w2 ++ [EvTime]
          ++ emitted (tick w2) w3 ++ emitted w3 w4 ++ emitted w4 w5.
Proof.
  intros Hnew Ha Hc Hp.
  assert (Hreg : registered dn (store w) = false).
  { destruct (registered dn (store w)) eqn:Hreg; [|done].
    apply registered_spec in Hreg. contradiction. }
  assert (Hma : meta_outcome env a "article"
                = Returned (bool_decide ("article_id" ∈ columns dfa)))
    by (unfold meta_outcome; by rewrite Ha).
  assert (Hmc : meta_outcome env c "customer"
                = Returned (bool_decide ("customer_id" ∈ columns dfc)))
    by (unfold meta_outcome; by rewrite Hc).
  assert (Hmp : purchase_outcome env p
                = Returned (bool_decide (first_missing (columns dfp) = None)))
    by (unfold purchase_outcome; by rewrite Hp).
  eexists _, _, _, _, _.
  split.
  { unfold reflect, Logger_log.
    erewrite bind_run by apply emit_run.
    erewrite bind_run by apply emit_run.
    rewrite addDatasetEntry_run, !after_after, !store_after, Hreg.
    reflexivity. }
  split; [apply check_files_run|].
  split; [rewrite addMetaDataset_run, Hma; reflexivity|].
  split; [rewrite addMetaDataset_run, Hmc; reflexivity|].
  split; [rewrite addPurchasesDataset_run, Hmp; reflexivity|].
  split.
  { rewrite addDataset_run.
    unfold ingest_outcome, ingest_store, ingest_events, ingest_clock,
      loads_outcome, loads_store, loads_events, closing_events.
    rewrite Hreg, Hma, Hmc, Hmp.
    unfold after, tick; cbn [store trace clock_reads].
    apply same_world. rewrite <- ?app_assoc. cbn [app].
    rewrite <- ?app_assoc. reflexivity. }
  unfold after, tick; cbn [store trace clock_reads].
  rewrite !emitted_app. unfold entry_events. rewrite Hreg.
  split; [reflexivity|]. split; [reflexivity|].
  rewrite <- ?app_assoc. cbn [app]. rewrite <- ?app_assoc. reflexivity.
Qed.

(** An ingestion whose article file has no [article_id] column: the article
    load returns false, and the customer and purchase loads still run. *)
Lemma addDataset_step_order_witness :
  ("H_M" ∉ map name (dataset (store Fixtures.fresh)))
  ∧ read_csv Fixtures.disk "articles_no_id.csv" "," = Some Fixtures.articles_no_id
  ∧ read_csv Fixtures.disk "customers.csv" "," = Some Fixtures.customers
  ∧ read_csv Fixtures.disk "purchases.csv" "," = Some Fixtures.purchases
  ∧ ∃ w1 w2 w3 w4 w5,
      (reflect ;; Logger_log (adding_msg "H_M") ;;
       __addDatasetEntry "H_M" "mosh") Fixtures.fresh
        = (Returned true, w1)
      ∧ check_files Fixtures.disk
          ["purchases.csv"; "articles_no_id.csv"; "customers.csv"] w1
        = (Returned (), w2)
      ∧ __addMetaDataset Fixtures.disk "H_M" "articles_no_id.csv" "article"
          (tick w2)
        = (Returned (bool_decide ("article_id" ∈ columns Fixtures.articles_no_id)),
           w3)
      ∧ __addMetaDataset Fixtures.disk "H_M" "customers.csv" "customer" w3
        = (Returned (bool_decide ("customer_id" ∈ columns Fixtures.customers)),
           w4)
      ∧ __addPurchasesDataset Fixtures.disk "H_M" "purchases.csv" w4
        = (Returned (bool_decide
                       (first_missing (columns Fixtures.purchases) = None)),
           w5)
      ∧ addDataset Fixtures.disk "H_M" "mosh" "purchases.csv"
          "articles_no_id.csv" "customers.csv" Fixtures.fresh
        = (Returned None,
           {| store := store w5;
              trace := trace w5 ++
                [EvCommit; EvTime;
                 EvLog (added_msg "H_M"
                          (time Fixtures.disk (clock_reads w2))
                          (time Fixtures.disk (clock_reads w5)))];
              clock_reads := S (clock_reads w5) |})
      ∧ emitted Fixtures.fresh w1
        = [EvReflect; EvLog (adding_msg "H_M"); EvQuery "dataset" "H_M";
           EvEngineInsert "dataset" (mkDataset "H_M" "mosh")]
      ∧ emitted w1 w2
        = check_events Fixtures.disk
            ["purchases.csv"; "articles_no_id.csv"; "customers.csv"]
      ∧ trace w5
        = trace Fixtures.fresh ++ emitted Fixtures.fresh w1 ++ emitted w1 w2
            ++ [EvTime] ++ emitted (tick w2) w3 ++ emitted w3 w4
            ++ emitted w4 w5.
Proof.
  assert (Hnew : "H_M" ∉ map name (dataset (store Fixtures.fresh)))
    by compute_done.
  assert (Ha : read_csv Fixtures.disk "articles_no_id.csv" ","
               = Some Fixtures.articles_no_id) by reflexivity.
  assert (Hc : read_csv Fixtures.disk "customers.csv" ","
               = Some Fixtures.customers) by reflexivity.
  assert (Hp : read_csv Fixtures.disk "purchases.csv" ","
               = Some Fixtures.purchases) by reflexivity.
  split; [exact Hnew|]. split; [exact Ha|]. split; [exact Hc|].
  split; [exact Hp|].
  exact (addDataset_step_order Fixtures.disk "H_M" "mosh" "purchases.csv"
           "articles_no_id.csv" "customers.csv" Fixtures.articles_no_id
           Fixtures.customers Fixtures.purchases Fixtures.fresh
           Hnew Ha Hc Hp).
Defined.

Lemma body_comma_read evs : Forall body_event evs → Forall comma_read evs.
Proof.
  intros H. eapply Forall_impl; [exact H|].
  intros e He. destruct e; simpl in *; done.
Qed.

(** C9, as the code has it.  Neither loader takes a delimiter: each reads
    its file once, with the comma, and every CSV read that an ingestion
    issues uses the comma. *)
Theorem read_csv_always_comma (env : Env) dn up p a c k w :
  (emitted w (__addMetaDataset env dn a k w).2) !! 2 = Some (EvReadCsv a ",")
  ∧ Forall comma_read (emitted w (__addMetaDataset env dn a k w).2)
  ∧ (emitted w (__addPurchasesDataset env dn p w).2) !! 2
    = Some (EvReadCsv p ",")
  ∧ Forall comma_read (emitted w (__addPurchasesDataset env dn p w).2)
  ∧ Forall comma_read (emitted w (addDataset env dn up p a c w).2).
Proof.
  rewrite addMetaDataset_run, addPurchasesDataset_run, addDataset_run.
  cbn [snd]. unfold after. rewrite !emitted_app.
  split; [reflexivity|].
  split; [apply body_comma_read, meta_events_body|].
  split; [reflexivity|].
  split; [apply body_comma_read, purchase_events_body|].
  rewrite ingest_events_split. apply Forall_app. split.
  - apply body_comma_read, ingest_body_body.
  - destruct (ingest_outcome _ _ _ _ _ _) as [[b|]|e];
      unfold closing_events; by repeat constructor.
Qed.

(** C9, as the specification words it, fails: a file written with
    semicolons, which a semicolon parse would split into its three columns,
    is parsed with the comma by the article load, which then finds no
    [article_id] column and gives up. *)
Lemma delimiter_is_not_configurable :
  read_csv Fixtures.disk "articles_semicolon.csv" ";" = Some Fixtures.articles
  ∧ __addMetaDataset Fixtures.disk "H_M" "articles_semicolon.csv" "article"
      Fixtures.fresh
    = (Returned false,
       after Fixtures.fresh (store Fixtures.fresh)
         [EvReflect; EvCursor; EvReadCsv "articles_semicolon.csv" ",";
          EvLogError (missing_column_msg "article_id" "H_M")]).
Proof. split; reflexivity. Qed.

(** ** Facts about names, tables and frames *)

Section Names.

(** Peels equal leading characters off [k +:+ suffix = literal]. *)
Ltac peel H k :=
  repeat (destruct k as [|? k]; simpl in H;
          [discriminate H | injection H as _ H]);
  destruct k; discriminate H.

Lemma id_column_not_dataset_name k : id_column k ≠ "dataset_name".
Proof. unfold id_column. intros H. peel H k. Qed.

Lemma id_column_not_attribute k : id_column k ≠ "attribute".
Proof. unfold id_column. intros H. peel H k. Qed.

Lemma id_column_not_value k : id_column k ≠ "value".
Proof. unfold id_column. intros H. peel H k. Qed.

Lemma id_column_not_type k : id_column k ≠ "type".
Proof. unfold id_column. intros H. peel H k. Qed.

Lemma attribute_table_other k : attribute_table k ≠ k.
Proof.
  unfold attribute_table. induction k as [|ch k IH]; simpl.
  - discriminate.
  - intros H. injection H as H. exact (IH H).
Qed.

End Names.

Section Tables.

Lemma table_copy_same df t cols s :
  table t (copy_store df t cols s)
  = table t s ++ map (mkBulk cols) (rows df).
Proof. unfold table, copy_store; simpl. by rewrite lookup_insert_eq. Qed.

Lemma table_copy_other df t t' cols s :
  t' ≠ t → table t (copy_store df t' cols s) = table t s.
Proof.
  intros Hne. unfold table at 1, copy_store; simpl.
  by rewrite lookup_insert_ne.
Qed.

Lemma dataset_copy df t cols s : dataset (copy_store df t cols s) = dataset s.
Proof. reflexivity. Qed.

(** The attribute copies of a metadata load leave the identity table alone
    and append, column by column, to the attribute table. *)
Lemma attribute_steps_identity dn k df l s :
  table k (fold_left (λ s a, attribute_step dn k df a s) l s) = table k s.
Proof.
  revert s. induction l as [|a l IH]; intros s; simpl; [done|].
  rewrite IH. unfold attribute_step. case_bool_decide; [done|].
  apply table_copy_other, attribute_table_other.
Qed.

Lemma attribute_steps_attribute dn k df l s :
  table (attribute_table k) (fold_left (λ s a, attribute_step dn k df a s) l s)
  = table (attribute_table k) s ++
    flat_map (λ a,
      let t := meta_data_attribute_table dn k df a in
      map (mkBulk (Some (columns t))) (rows t))
      (filter (λ a, a ≠ id_column k) l).
Proof.
  revert s. induction l as [|a l IH]; intros s; simpl.
  - by rewrite app_nil_r.
  - rewrite IH, filter_cons. unfold attribute_step.
    case_bool_decide as Ha.
    + rewrite decide_False by (intros Hn; by apply Hn). done.
    + rewrite decide_True by done. simpl.
      rewrite table_copy_same. by rewrite <- app_assoc.
Qed.

End Tables.

Section Frames.

Lemma series_cell_at c df : series c df = map (cell_at c df) (rows df).
Proof. reflexivity. Qed.

Lemma length_series c df : length (series c df) = length (rows df).
Proof. unfold series. by rewrite length_map. Qed.

Lemma pick_absent c cols r : c ∉ cols → pick (is_label c) cols r = [].
Proof.
  revert r. induction cols as [|x cols IH]; intros r Hc; [done|].
  destruct r as [|v r]; [done|]. simpl.
  apply not_elem_of_cons in Hc as [Hne Hc].
  change (is_label c x) with (bool_decide (x = c)).
  rewrite bool_decide_eq_false_2 by congruence.
  by apply IH.
Qed.

Lemma pick_label_single c cols r :
  NoDup cols → c ∈ cols → length r = length cols →
  pick (is_label c) cols r = [hd None (pick (is_label c) cols r)].
Proof.
  revert r. induction cols as [|x cols IH]; intros r Hnd Hc Hlen.
  - inversion Hc.
  - destruct r as [|v r]; [discriminate|]. simpl in *.
    apply NoDup_cons in Hnd as [Hx Hnd].
    change (is_label c x) with (bool_decide (x = c)).
    case_bool_decide as Hxc.
    + subst x. simpl. by rewrite pick_absent.
    + apply elem_of_cons in Hc as [->|Hc]; [done|].
      apply IH; [done | done | lia].
Qed.

Lemma filter_label_single (c : string) (cols : list string) :
  NoDup cols → c ∈ cols → filter (λ x, x = c) cols = [c].
Proof.
  induction cols as [|x cols IH]; intros Hnd Hc; [inversion Hc|].
  apply NoDup_cons in Hnd as [Hx Hnd]. rewrite filter_cons.
  destruct (decide (x = c)) as [->|Hne].
  - f_equal. clear IH Hc Hnd. induction cols as [|y cols IH]; [done|].
    apply not_elem_of_cons in Hx as [Hne Hx].
    rewrite filter_cons, decide_False by congruence. by apply IH.
  - apply elem_of_cons in Hc as [->|Hc]; [done|]. by apply IH.
Qed.

Lemma set_label_fresh c cols : c ∉ cols → set_label c cols = cols ++ [c].
Proof. intros H. unfold set_label. by rewrite bool_decide_eq_false_2. Qed.

Lemma set_cell_fresh c v cols r : c ∉ cols → set_cell c v cols r = r ++ [v].
Proof. intros H. unfold set_cell. by rewrite bool_decide_eq_false_2. Qed.

Lemma assign_rows_fresh {A} c cols (f : A → list cell) (g : A → cell) l :
  c ∉ cols →
  assign_rows c cols (map f l) (map g l) = map (λ x, f x ++ [g x]) l.
Proof.
  intros Hc. induction l as [|x l IH]; simpl; [done|].
  by rewrite set_cell_fresh, IH.
Qed.

Lemma select_single c df :
  frame_wf df → c ∈ columns df →
  select c df = {| columns := [c];
                   rows := map (λ r, [cell_at c df r]) (rows df) |}.
Proof.
  intros [Hnd Hrect] Hc. unfold select. f_equal.
  - by apply filter_label_single.
  - apply map_ext_in. intros r Hr. unfold cell_at.
    apply pick_label_single; [done | done |].
    unfold frame_rect in Hrect. rewrite Forall_forall in Hrect.
    apply Hrect. by apply list_elem_of_In.
Qed.

(** The identity frame: the identity cell of every CSV row, in file order,
    next to the dataset name. *)
Lemma meta_data_table_rows dn k df :
  frame_wf df → id_column k ∈ columns df →
  meta_data_table dn k df
  = {| columns := [id_column k; "dataset_name"];
       rows := map (λ r, [cell_at (id_column k) df r; Some (VStr dn)])
                 (rows df) |}.
Proof.
  intros Hwf Hid. unfold meta_data_table. rewrite select_single by done.
  assert (Hfresh : "dataset_name" ∉ [id_column k]).
  { intros H. apply list_elem_of_singleton in H.
    by apply (id_column_not_dataset_name k). }
  unfold assign; simpl. rewrite set_label_fresh by done. f_equal.
  rewrite map_map. apply map_ext. intros r.
  by rewrite set_cell_fresh.
Qed.

Lemma length_remove_dups_le {A} `{EqDecision A} (l : list A) :
  (length (remove_dups l) ≤ length l)%nat.
Proof.
  induction l as [|x l IH]; simpl; [done|].
  destruct (decide_rel _ _ _); simpl; lia.
Qed.

(** A list has as many entries as distinct values exactly when no value
    repeats. *)
Lemma length_remove_dups_NoDup {A} `{EqDecision A} (l : list A) :
  length (remove_dups l) = length l ↔ NoDup l.
Proof.
  induction l as [|x l IH]; simpl.
  - split; [constructor | done].
  - destruct (decide_rel _ _ _) as [Hin|Hout]; simpl.
    + split.
      * intros Hlen. pose proof (length_remove_dups_le l). lia.
      * intros Hnd. apply NoDup_cons in Hnd as [Hx _]. contradiction.
    + rewrite NoDup_cons. split.
      * intros Hlen. split; [done|]. apply IH. lia.
      * intros [_ Hnd]. apply IH in Hnd. lia.
Qed.

End Frames.

(** ** The identity load *)

(** C3, as the code has it.  When the metadata CSV has the [<kind>_id]
    column, the identity load appends to the [<kind>] table one row per row
    of the CSV, in file order, made of that row's identity value and the
    dataset name.  Nothing is deduplicated: the load has one row per
    distinct identity value exactly when the identity values of the CSV are
    pairwise distinct. *)
Theorem addMetaDataset_identity_rows (env : Env) dn f k df w :
  read_csv env f "," = Some df →
  frame_wf df →
  id_column k ∈ columns df →
  let w' := (__addMetaDataset env dn f k w).2 in
  let ids := series (id_column k) df in
  let loaded := map (λ v, mkBulk None [v; Some (VStr dn)]) ids in
  table k (store w') = table k (store w) ++ loaded
  ∧ length loaded = length (rows df)
  ∧ (length loaded = length (remove_dups ids) ↔ NoDup ids).
Proof.
  intros Hread Hwf Hid w' ids loaded. subst w' ids loaded.
  rewrite addMetaDataset_run. cbn [snd]. rewrite store_after.
  unfold meta_store. rewrite Hread, bool_decide_eq_true_2 by done.
  rewrite attribute_steps_identity, table_copy_same.
  rewrite meta_data_table_rows by done. cbn [rows].
  rewrite series_cell_at, !map_map, !length_map.
  split; [reflexivity|]. split; [reflexivity|].
  rewrite <- length_remove_dups_NoDup, length_map.
  split; intros H; by rewrite H.
Qed.

Lemma addMetaDataset_identity_rows_witness :
  read_csv Fixtures.disk "articles.csv" "," = Some Fixtures.articles
  ∧ frame_wf Fixtures.articles
  ∧ id_column "article" ∈ columns Fixtures.articles
  ∧ table "article"
      (store (__addMetaDataset Fixtures.disk "H_M" "articles.csv" "article"
                Fixtures.fresh).2)
    = table "article" (store Fixtures.fresh) ++
      map (λ v, mkBulk None [v; Some (VStr "H_M")])
        (series (id_column "article") Fixtures.articles).
Proof.
  assert (Hread : read_csv Fixtures.disk "articles.csv" ","
                  = Some Fixtures.articles) by reflexivity.
  assert (Hwf : frame_wf Fixtures.articles).
  { split; [compute_done|]. unfold frame_rect. by repeat constructor. }
  assert (Hid : id_column "article" ∈ columns Fixtures.articles)
    by compute_done.
  split; [exact Hread|]. split; [exact Hwf|]. split; [exact Hid|].
  exact (proj1 (addMetaDataset_identity_rows Fixtures.disk "H_M"
                  "articles.csv" "article" Fixtures.articles Fixtures.fresh
                  Hread Hwf Hid)).
Defined.

(** C3, as the specification words it, fails: a CSV that names article 1
    twice loads two identity rows for one distinct identity value. *)
Lemma identity_load_keeps_repeated_ids :
  let w' := (__addMetaDataset Fixtures.disk "H_M" "articles_repeated.csv"
               "article" Fixtures.fresh).2 in
  length (table "article" (store w')) = 2
  ∧ length (remove_dups (series "article_id" Fixtures.articles_repeated)) = 1.
Proof. split; reflexivity. Qed.

(** ** The attribute load *)

Section Attributes.

(** A literal label is not among a few given ones. *)
Ltac fresh_label :=
  rewrite ?not_elem_of_cons; repeat split;
  first [ apply not_elem_of_nil | discriminate
        | intros E; symmetry in E; contradiction ].

Lemma meta_data_attribute_table_rows dn k df a :
  frame_wf df → id_column k ∈ columns df →
  meta_data_attribute_table dn k df a
  = {| columns := attribute_columns k;
       rows := List.filter no_null (map (attribute_cells dn k df a) (rows df)) |}.
Proof.
  intros Hwf Hid. unfold meta_data_attribute_table.
  rewrite select_single by done.
  pose proof (id_column_not_dataset_name k) as Hn1.
  pose proof (id_column_not_attribute k) as Hn2.
  pose proof (id_column_not_value k) as Hn3.
  pose proof (id_column_not_type k) as Hn4.
  assert (H1 : "dataset_name" ∉ [id_column k]) by fresh_label.
  assert (H2 : "attribute" ∉ [id_column k; "dataset_name"]) by fresh_label.
  assert (H3 : "value" ∉ [id_column k; "dataset_name"; "attribute"])
    by fresh_label.
  assert (H4 : "type" ∉ [id_column k; "dataset_name"; "attribute"; "value"])
    by fresh_label.
  unfold dropna, assign, assign_series; cbn [columns rows].
  rewrite (set_label_fresh "dataset_name") by done. cbn [app].
  rewrite (set_label_fresh "attribute") by done. cbn [app].
  rewrite (set_label_fresh "value") by done. cbn [app].
  rewrite (set_label_fresh "type") by done. cbn [app].
  f_equal. f_equal.
  rewrite !map_map, series_cell_at.
  rewrite (assign_rows_fresh "value" _ _ (cell_at a df)) by done.
  rewrite map_map. apply map_ext. intros r.
  rewrite (set_cell_fresh "dataset_name") by done.
  rewrite (set_cell_fresh "attribute") by done.
  rewrite (set_cell_fresh "type") by done.
  reflexivity.
Qed.

Lemma attribute_frame_bulk dn k df a :
  frame_wf df → id_column k ∈ columns df →
  Forall is_Some (series (id_column k) df) →
  (let t := meta_data_attribute_table dn k df a in
   map (mkBulk (Some (columns t))) (rows t))
  = attribute_rows dn k df a.
Proof.
  intros Hwf Hid Hids. cbv zeta.
  rewrite meta_data_attribute_table_rows by done. cbn [columns rows].
  unfold attribute_rows. rewrite series_cell_at in Hids.
  induction (rows df) as [|r l IH]; [done|].
  cbn [map] in Hids. apply Forall_cons in Hids as [[e He] Hids].
  cbn [map List.filter flat_map]. rewrite <- (IH Hids).
  unfold attribute_cells at 1 3, no_null. rewrite He. cbn [forallb].
  destruct (cell_at a df r) as [v|]; reflexivity.
Qed.

Lemma length_attribute_rows dn k df a :
  length (attribute_rows dn k df a) = length (rows df) - nulls (series a df).
Proof.
  unfold attribute_rows, nulls. rewrite series_cell_at.
  assert (H : length (flat_map (λ r,
                match cell_at a df r with
                | Some _ => [mkBulk (Some (attribute_columns k))
                               (attribute_cells dn k df a r)]
                | None => []
                end) (rows df))
              + length (List.filter (λ v, bool_decide (v = None))
                          (map (cell_at a df) (rows df)))
              = length (rows df)).
  { induction (rows df) as [|r l IH]; [done|].
    cbn [flat_map map List.filter].
    destruct (cell_at a df r) as [v|]; simpl in *; lia. }
  lia.
Qed.

Lemma attribute_rows_tagged dn k df a b :
  b ∈ attribute_rows dn k df a → fields b !! 2 = Some (Some (VStr a)).
Proof.
  unfold attribute_rows. intros Hb. apply list_elem_of_In in Hb.
  apply in_flat_map in Hb as (r & _ & Hb).
  destruct (cell_at a df r); [|destruct Hb].
  destruct Hb as [<-|[]]. reflexivity.
Qed.

Lemma filter_all {A} (P : A → Prop) `{∀ x, Decision (P x)} (l : list A) :
  (∀ x, x ∈ l → P x) → filter P l = l.
Proof.
  induction l as [|x l IH]; intros Hall; [done|].
  rewrite filter_cons, decide_True by (apply Hall; left).
  f_equal. apply IH. intros y Hy. apply Hall. by right.
Qed.

Lemma filter_none {A} (P : A → Prop) `{∀ x, Decision (P x)} (l : list A) :
  (∀ x, x ∈ l → ¬ P x) → filter P l = [].
Proof.
  induction l as [|x l IH]; intros Hall; [done|].
  rewrite filter_cons, decide_False by (apply Hall; left).
  apply IH. intros y Hy. apply Hall. by right.
Qed.

(** Picking the rows tagged [a] out of the whole load gives back the rows
    of column [a]: the columns of a CSV have distinct labels. *)
Lemma attribute_rows_by_name dn k df (l : list string) a :
  NoDup l → a ∈ l →
  filter (λ b, fields b !! 2 = Some (Some (VStr a)))
    (flat_map (attribute_rows dn k df) l)
  = attribute_rows dn k df a.
Proof.
  induction l as [|x l IH]; intros Hnd Ha; [inversion Ha|].
  apply NoDup_cons in Hnd as [Hx Hnd]. cbn [flat_map]. rewrite filter_app.
  destruct (decide (x = a)) as [->|Hne].
  - rewrite filter_all by (intros b; apply attribute_rows_tagged).
    rewrite filter_none; [by rewrite app_nil_r|].
    intros b Hb Htag. apply list_elem_of_In in Hb.
    apply in_flat_map in Hb as (y & Hy & Hb).
    apply list_elem_of_In in Hy, Hb.
    apply attribute_rows_tagged in Hb. rewrite Hb in Htag.
    injection Htag as ->. contradiction.
  - rewrite filter_none.
    + apply elem_of_cons in Ha as [->|Ha]; [done|]. by apply IH.
    + intros b Hb Htag. apply attribute_rows_tagged in Hb.
      rewrite Hb in Htag. injection Htag as ->. done.
Qed.

End Attributes.

(** C5. For a metadata CSV of N rows whose [<kind>_id] column has no null,
    the attribute table receives, column after column in header order, the
    rows of every other column; the rows tagged with column [a] are the
    rows of [a], there are N - k of them when [a] has k nulls, each made of
    the row's identity value, the dataset name, the label [a], the value
    and the type tag 0.  A row contributes to column [a] as soon as its
    cell under [a] is not null, whatever its cells under other columns. *)
Theorem addMetaDataset_attribute_rows (env : Env) dn f k df w :
  read_csv env f "," = Some df →
  frame_wf df →
  id_column k ∈ columns df →
  Forall is_Some (series (id_column k) df) →
  let w' := (__addMetaDataset env dn f k w).2 in
  let loaded :=
    flat_map (attribute_rows dn k df)
      (filter (λ a, a ≠ id_column k) (columns df)) in
  table (attribute_table k) (store w')
    = table (attribute_table k) (store w) ++ loaded
  ∧ ∀ a, a ∈ columns df → a ≠ id_column k →
      filter (λ b, fields b !! 2 = Some (Some (VStr a))) loaded
        = attribute_rows dn k df a
      ∧ length (attribute_rows dn k df a)
        = length (rows df) - nulls (series a df)
      ∧ ∀ r v, r ∈ rows df → cell_at a df r = Some v →
          mkBulk (Some (attribute_columns k))
            [cell_at (id_column k) df r; Some (VStr dn); Some (VStr a);
             Some v; Some (VInt 0)] ∈ loaded.
Proof.
  intros Hread Hwf Hid Hids w' loaded. subst w' loaded.
  rewrite addMetaDataset_run. cbn [snd]. rewrite store_after.
  unfold meta_store. rewrite Hread, bool_decide_eq_true_2 by done.
  rewrite attribute_steps_attribute.
  rewrite table_copy_other by (intros E; by apply (attribute_table_other k)).
  split.
  - f_equal. apply flat_map_ext. intros a.
    by apply attribute_frame_bulk.
  - intros a Ha Hne.
    assert (Hin : a ∈ filter (λ a, a ≠ id_column k) (columns df))
      by (apply list_elem_of_filter; done).
    assert (Hnd : NoDup (filter (λ a, a ≠ id_column k) (columns df)))
      by (apply NoDup_filter, Hwf).
    split; [by apply attribute_rows_by_name|].
    split; [apply length_attribute_rows|].
    intros r v Hr Hv. apply list_elem_of_In, in_flat_map.
    exists a. split; [by apply list_elem_of_In|].
    unfold attribute_rows. apply in_flat_map.
    exists r. split; [by apply list_elem_of_In|].
    rewrite Hv. left. unfold attribute_cells. by rewrite Hv.
Qed.

(** Article 2 has no colour: the colour column loads two rows out of
    three, the product code column all three. *)
Lemma addMetaDataset_attribute_rows_witness :
  read_csv Fixtures.disk "articles.csv" "," = Some Fixtures.articles
  ∧ frame_wf Fixtures.articles
  ∧ id_column "article" ∈ columns Fixtures.articles
  ∧ Forall is_Some (series (id_column "article") Fixtures.articles)
  ∧ length (attribute_rows "H_M" "article" Fixtures.articles "colour")
    = length (rows Fixtures.articles)
      - nulls (series "colour" Fixtures.articles)
  ∧ length (table "article_attribute"
              (store (__addMetaDataset Fixtures.disk "H_M" "articles.csv"
                        "article" Fixtures.fresh).2)) = 5.
Proof.
  assert (Hread : read_csv Fixtures.disk "articles.csv" ","
                  = Some Fixtures.articles) by reflexivity.
  assert (Hwf : frame_wf Fixtures.articles).
  { split; [compute_done|]. unfold frame_rect. by repeat constructor. }
  assert (Hid : id_column "article" ∈ columns Fixtures.articles)
    by compute_done.
  assert (Hids : Forall is_Some (series (id_column "article") Fixtures.articles))
    by (repeat constructor; eexists; reflexivity).
  pose proof (addMetaDataset_attribute_rows Fixtures.disk "H_M"
                "articles.csv" "article" Fixtures.articles Fixtures.fresh
                Hread Hwf Hid Hids) as [Htable Hcol].
  split; [exact Hread|]. split; [exact Hwf|]. split; [exact Hid|].
  split; [exact Hids|]. split.
  - refine (proj1 (proj2 (Hcol "colour" _ _))); [compute_done | discriminate].
  - change (attribute_table "article") with "article_attribute" in Htable.
    rewrite Htable. reflexivity.
Defined.

(** ** Dropping duplicates *)

Section Dedup.

Variables subset cols : list string.

Local Abbreviation key := (row_key subset cols).

Lemma keep_first_sublist seen rs : keep_first subset cols seen rs `sublist_of` rs.
Proof.
  revert seen. induction rs as [|r rs IH]; intros seen; simpl; [constructor|].
  case_bool_decide.
  - apply sublist_cons, IH.
  - apply sublist_skip, IH.
Qed.

(** The kept rows have pairwise distinct keys, none of them seen before. *)
Lemma keep_first_keys seen rs :
  NoDup (map key (keep_first subset cols seen rs))
  ∧ ∀ k, k ∈ map key (keep_first subset cols seen rs) → k ∉ seen.
Proof.
  revert seen. induction rs as [|r rs IH]; intros seen; simpl.
  - split; [constructor | intros k Hk; inversion Hk].
  - case_bool_decide as Hseen; [apply IH|].
    destruct (IH (row_key subset cols r :: seen)) as [Hnd Hout].
    cbn [map]. split.
    + apply NoDup_cons. split; [|done].
      intros Hin. apply Hout in Hin. apply Hin. left.
    + intros k Hk. apply elem_of_cons in Hk as [->|Hk]; [done|].
      apply Hout in Hk. intros Hs. apply Hk. by right.
Qed.

(** Every key of the input is either seen before or kept. *)
Lemma keep_first_covers seen rs r :
  r ∈ rs → key r ∈ seen ∨ key r ∈ map key (keep_first subset cols seen rs).
Proof.
  revert seen. induction rs as [|r0 rs IH]; intros seen Hr; [inversion Hr|].
  simpl. apply elem_of_cons in Hr as [->|Hr].
  - case_bool_decide; [by left|]. right. left.
  - case_bool_decide as Hseen; [by apply IH|].
    destruct (IH (row_key subset cols r0 :: seen) Hr) as [Hin|Hin].
    + apply elem_of_cons in Hin as [->|Hin]; [right; left | by left].
    + right. by right.
Qed.

(** A kept row is the first row of the input that has its key. *)
Lemma keep_first_first seen rs r :
  r ∈ keep_first subset cols seen rs →
  (key r ∉ seen)
  ∧ List.find (λ x, bool_decide (key x = key r)) rs = Some r.
Proof.
  revert seen. induction rs as [|r0 rs IH]; intros seen Hr; [inversion Hr|].
  simpl in Hr. cbn [List.find]. case_bool_decide as Hseen.
  - destruct (IH _ Hr) as [Hout Hfind]. split; [done|].
    rewrite bool_decide_eq_false_2; [done|].
    intros E. apply Hout. by rewrite <- E.
  - apply elem_of_cons in Hr as [->|Hr].
    + split; [done|]. by rewrite bool_decide_eq_true_2.
    + destruct (IH _ Hr) as [Hout Hfind]. split.
      * intros Hs. apply Hout. by right.
      * rewrite bool_decide_eq_false_2; [done|].
        intros E. apply Hout. rewrite <- E. left.
Qed.

(** As many rows are kept as the input has distinct keys. *)
Lemma keep_first_length rs :
  length (keep_first subset cols [] rs) = length (remove_dups (map key rs)).
Proof.
  rewrite <- (length_map key (keep_first subset cols [] rs)).
  apply Permutation_length, NoDup_Permutation.
  - apply keep_first_keys.
  - apply NoDup_remove_dups.
  - intros k. rewrite elem_of_remove_dups. split.
    + intros Hk. apply list_elem_of_In, in_map_iff in Hk as (r & <- & Hr).
      apply list_elem_of_In, in_map. apply list_elem_of_In.
      apply list_elem_of_In in Hr.
      eapply elem_of_sublist; [exact Hr | apply keep_first_sublist].
    + intros Hk. apply list_elem_of_In, in_map_iff in Hk as (r & <- & Hr).
      apply list_elem_of_In in Hr.
      destruct (keep_first_covers [] rs r Hr) as [Hin|Hin]; [inversion Hin|done].
Qed.

End Dedup.

(** ** The purchase load *)

Section Purchases.

Lemma purchase_data_table_named dn df :
  purchase_data_table dn df = drop_duplicates purchase_subset (purchase_named dn df).
Proof. reflexivity. Qed.

Lemma columns_purchase_data_table dn df :
  columns (purchase_data_table dn df)
  = map relabel (columns df)
    ++ (if bool_decide ("dataset_name" ∈ columns df) then []
        else ["dataset_name"]).
Proof.
  unfold purchase_data_table, drop_duplicates, rename, assign, set_label.
  cbn [columns]. case_bool_decide.
  - by rewrite app_nil_r.
  - by rewrite map_app.
Qed.

Lemma overwrite_length c v cols r : length (overwrite c v cols r) = length r.
Proof.
  revert r. induction cols as [|x cols IH]; intros [|y r]; simpl; [done..|].
  by rewrite IH.
Qed.

Lemma overwrite_lookup_other c v cols r i x :
  cols !! i = Some x → x ≠ c → overwrite c v cols r !! i = r !! i.
Proof.
  revert r i. induction cols as [|x0 cols IH]; intros r i Hi Hne;
    [inversion Hi|].
  destruct r as [|y r]; [done|]. destruct i as [|i]; simpl in *.
  - injection Hi as ->. by rewrite bool_decide_eq_false_2.
  - by apply IH.
Qed.

Lemma overwrite_lookup_label c v cols r i :
  length r = length cols → cols !! i = Some c →
  overwrite c v cols r !! i = Some v.
Proof.
  revert r i. induction cols as [|x0 cols IH]; intros r i Hlen Hi;
    [inversion Hi|].
  destruct r as [|y r]; [discriminate|]. destruct i as [|i]; simpl in *.
  - injection Hi as ->. by rewrite bool_decide_eq_true_2.
  - apply IH; [lia | done].
Qed.

Lemma set_cell_length c v cols r :
  length r = length cols →
  length (set_cell c v cols r) = length (set_label c cols).
Proof.
  intros Hlen. unfold set_cell, set_label. case_bool_decide.
  - by rewrite overwrite_length.
  - rewrite !length_app. simpl. lia.
Qed.

Lemma set_cell_lookup_other c v cols r i x :
  length r = length cols → cols !! i = Some x → x ≠ c →
  set_cell c v cols r !! i = r !! i.
Proof.
  intros Hlen Hi Hne. unfold set_cell. case_bool_decide.
  - by eapply overwrite_lookup_other.
  - apply lookup_app_l. rewrite Hlen. by eapply lookup_lt_Some.
Qed.

Lemma set_cell_lookup_label c v cols r i :
  length r = length cols → set_label c cols !! i = Some c →
  set_cell c v cols r !! i = Some v.
Proof.
  intros Hlen Hi. unfold set_cell, set_label in *. case_bool_decide as Hc.
  - by apply overwrite_lookup_label.
  - destruct (decide (i < length cols)%nat) as [Hlt|Hge].
    + rewrite lookup_app_l in Hi by done.
      exfalso. apply Hc. by eapply list_elem_of_lookup_2.
    + assert (i = length cols) as ->.
      { apply lookup_lt_Some in Hi. rewrite length_app in Hi.
        simpl in Hi. lia. }
      rewrite <- Hlen. by rewrite list_lookup_middle.
Qed.

Lemma relabel_dataset_name x : relabel x = "dataset_name" → x = "dataset_name".
Proof. unfold relabel. case_bool_decide; [discriminate | done]. Qed.

Lemma purchase_run (env : Env) dn f df w :
  read_csv env f "," = Some df →
  (∀ c, c ∈ required_columns → c ∈ columns df) →
  __addPurchasesDataset env dn f w
  = (Returned true,
     let t := purchase_data_table dn df in
     after w (copy_store t "purchase" (Some (columns t)) (store w))
       [EvReflect; EvCursor; EvReadCsv f ",";
        copy_event t "purchase" (Some (columns t))]).
Proof.
  intros Hread Hreq. apply first_missing_none in Hreq.
  rewrite addPurchasesDataset_run.
  unfold purchase_outcome, purchase_store, purchase_events.
  by rewrite Hread, Hreq.
Qed.

End Purchases.

(** ** Further properties of the ingestion

    What the methods keep, and what they never do, beyond the statements
    above. *)

Section StoreFacts.

Variable env : Env.

Lemma table_copy_prefix df t t' cols s :
  table t s `prefix_of` table t (copy_store df t' cols s).
Proof.
  destruct (decide (t' = t)) as [->|Hne].
  - rewrite table_copy_same. by apply prefix_app_r.
  - by rewrite table_copy_other.
Qed.

Lemma prefix_trans {A} (l1 l2 l3 : list A) :
  l1 `prefix_of` l2 → l2 `prefix_of` l3 → l1 `prefix_of` l3.
Proof. intros [k1 ->] [k2 ->]. exists (k1 ++ k2). by rewrite app_assoc. Qed.

Lemma attribute_steps_dataset dn k df l s :
  dataset (fold_left (λ s a, attribute_step dn k df a s) l s) = dataset s.
Proof.
  revert s. induction l as [|a l IH]; intros s; simpl; [done|].
  rewrite IH. unfold attribute_step. by case_bool_decide.
Qed.

Lemma attribute_steps_prefix dn k df l t s :
  table t s
  `prefix_of` table t (fold_left (λ s a, attribute_step dn k df a s) l s).
Proof.
  revert s. induction l as [|a l IH]; intros s; simpl; [done|].
  eapply prefix_trans; [|apply IH].
  unfold attribute_step. case_bool_decide; [done|]. apply table_copy_prefix.
Qed.

Lemma attribute_steps_other dn k df l t s :
  t ≠ attribute_table k →
  table t (fold_left (λ s a, attribute_step dn k df a s) l s) = table t s.
Proof.
  intros Hne. revert s. induction l as [|a l IH]; intros s; simpl; [done|].
  rewrite IH. unfold attribute_step. case_bool_decide; [done|].
  by apply table_copy_other.
Qed.

Lemma meta_store_dataset dn f k s :
  dataset (meta_store env dn f k s) = dataset s.
Proof.
  unfold meta_store. destruct (read_csv env f ","); [|done].
  case_bool_decide; [|done]. by rewrite attribute_steps_dataset.
Qed.

Lemma purchase_store_dataset dn f s :
  dataset (purchase_store env dn f s) = dataset s.
Proof.
  unfold purchase_store. destruct (read_csv env f ","); [|done].
  by destruct (first_missing _).
Qed.

Lemma loads_store_dataset dn p a c s :
  dataset (loads_store env dn p a c s) = dataset s.
Proof.
  unfold loads_store. destruct (meta_outcome env a "article").
  - destruct (meta_outcome env c "customer");
      by rewrite ?purchase_store_dataset, !meta_store_dataset.
  - by rewrite meta_store_dataset.
Qed.

Lemma meta_store_prefix dn f k t s :
  table t s `prefix_of` table t (meta_store env dn f k s).
Proof.
  unfold meta_store. destruct (read_csv env f ","); [|done].
  case_bool_decide; [|done].
  eapply prefix_trans; [apply table_copy_prefix | apply attribute_steps_prefix].
Qed.

Lemma purchase_store_prefix dn f t s :
  table t s `prefix_of` table t (purchase_store env dn f s).
Proof.
  unfold purchase_store. destruct (read_csv env f ","); [|done].
  destruct (first_missing _); [done|]. apply table_copy_prefix.
Qed.

Lemma loads_store_prefix dn p a c t s :
  table t s `prefix_of` table t (loads_store env dn p a c s).
Proof.
  unfold loads_store.
  destruct (meta_outcome env a "article"); [|apply meta_store_prefix].
  eapply prefix_trans; [apply meta_store_prefix|].
  destruct (meta_outcome env c "customer"); [|apply meta_store_prefix].
  eapply prefix_trans; [apply meta_store_prefix | apply purchase_store_prefix].
Qed.

Lemma meta_store_other dn f k t s :
  t ≠ k → t ≠ attribute_table k →
  table t (meta_store env dn f k s) = table t s.
Proof.
  intros Hk Ha. unfold meta_store. destruct (read_csv env f ","); [|done].
  case_bool_decide; [|done].
  rewrite attribute_steps_other by done. by apply table_copy_other.
Qed.

Lemma purchase_store_other dn f t s :
  t ≠ "purchase" → table t (purchase_store env dn f s) = table t s.
Proof.
  intros Hne. unfold purchase_store. destruct (read_csv env f ","); [|done].
  destruct (first_missing _); [done|]. by apply table_copy_other.
Qed.

Lemma entry_store_registered dn up s :
  registered dn (entry_store dn up s) = true.
Proof.
  apply registered_spec. unfold entry_store.
  destruct (registered dn s) eqn:Hreg; [by apply registered_spec|].
  simpl. rewrite map_app. apply elem_of_app. right. left.
Qed.

Lemma ingest_store_registered dn up p a c s :
  registered dn (ingest_store env dn up p a c s) = true.
Proof.
  unfold ingest_store. destruct (registered dn s) eqn:Hreg; [done|].
  apply registered_spec. rewrite loads_store_dataset.
  apply registered_spec. pose proof (entry_store_registered dn up s) as H.
  unfold entry_store in *. by rewrite Hreg in *.
Qed.

End StoreFacts.

(** X1. Whatever a call of [addDataset] for a name did (it may have been
    turned away, have completed, or have raised on an unreadable file), the
    name is registered afterwards: any later call for that name, with any
    uploader and any files, returns [False] and leaves the store as it
    is. *)
Theorem addDataset_again_is_rejected (env env' : Env)
  dn up p a c up' p' a' c' w :
  let w1 := (addDataset env dn up p a c w).2 in
  addDataset env' dn up' p' a' c' w1
  = (Returned (Some false),
     after w1 (store w1)
       [EvReflect; EvLog (adding_msg dn);
        EvQuery "dataset" dn; EvLogError (already_exists_msg dn)]).
Proof.
  intros w1. subst w1. rewrite (addDataset_run env). cbn [snd].
  pose proof (ingest_store_registered env dn up p a c (store w)) as Hreg.
  set (s1 := ingest_store env dn up p a c (store w)) in *.
  rewrite addDataset_run. cbn [store trace clock_reads].
  unfold ingest_outcome, ingest_store, ingest_events, ingest_clock,
    entry_events.
  rewrite Hreg. unfold after. cbn [store trace clock_reads].
  by rewrite app_nil_r.
Qed.

(** X2. [addDataset] keeps dataset names unique: if no name occurs twice in
    the [dataset] table before a call, none does after it, and the table
    has gained at most the one row of the call. *)
Theorem addDataset_keeps_names_unique (env : Env) dn up p a c w :
  NoDup (map name (dataset (store w))) →
  let s' := store (addDataset env dn up p a c w).2 in
  NoDup (map name (dataset s'))
  ∧ (dataset s' = dataset (store w)
     ∨ dataset s' = dataset (store w) ++ [mkDataset dn up]).
Proof.
  intros Hnd s'. subst s'. rewrite addDataset_run. cbn [snd store].
  unfold ingest_store. destruct (registered dn (store w)) eqn:Hreg.
  - split; [done | by left].
  - rewrite loads_store_dataset. unfold entry_store. rewrite Hreg. simpl.
    split; [|by right].
    rewrite map_app. simpl. apply NoDup_app. split; [done|]. split.
    + intros x Hx Hin. apply list_elem_of_singleton in Hin as ->.
      apply registered_spec in Hx. congruence.
    + apply NoDup_singleton.
Qed.

(** X3. [addDataset] only appends: whatever its outcome, the [dataset]
    table and every other table of the store keep the rows they had, in
    order, as a prefix of what they hold afterwards. *)
Theorem addDataset_only_appends (env : Env) dn up p a c w t :
  let s' := store (addDataset env dn up p a c w).2 in
  dataset (store w) `prefix_of` dataset s'
  ∧ table t (store w) `prefix_of` table t s'.
Proof.
  intros s'. subst s'. rewrite addDataset_run. cbn [snd store].
  unfold ingest_store. destruct (registered dn (store w)) eqn:Hreg; [done|].
  rewrite loads_store_dataset. unfold entry_store. rewrite Hreg. split.
  - simpl. by apply prefix_app_r.
  - apply (loads_store_prefix env dn p a c t
             {| dataset := dataset (store w) ++ [mkDataset dn up];
                relations := relations (store w) |}).
Qed.

(** X4. A loader writes to its own tables only: [__addMetaDataset] for a
    kind changes neither the [dataset] table nor any table other than
    [<kind>] and [<kind>_attribute], and [__addPurchasesDataset] changes
    neither the [dataset] table nor any table other than [purchase]. *)
Theorem loaders_keep_to_their_tables (env : Env) dn f k w t :
  let sm := store (__addMetaDataset env dn f k w).2 in
  let sp := store (__addPurchasesDataset env dn f w).2 in
  dataset sm = dataset (store w)
  ∧ (t ≠ k → t ≠ attribute_table k → table t sm = table t (store w))
  ∧ dataset sp = dataset (store w)
  ∧ (t ≠ "purchase" → table t sp = table t (store w)).
Proof.
  intros sm sp. subst sm sp.
  rewrite addMetaDataset_run, addPurchasesDataset_run. cbn [snd].
  rewrite !store_after.
  split; [apply meta_store_dataset|].
  split; [apply meta_store_other|].
  split; [apply purchase_store_dataset | apply purchase_store_other].
Qed.

Section RunFacts.

Variable env : Env.

Lemma meta_outcome_raised f k e :
  meta_outcome env f k = Raised e
  ↔ read_csv env f "," = None ∧ e = ReadError f.
Proof.
  unfold meta_outcome. destruct (read_csv env f ","); split.
  - discriminate.
  - by intros [? _].
  - intros H. by injection H as <-.
  - by intros [_ ->].
Qed.

Lemma purchase_outcome_raised f e :
  purchase_outcome env f = Raised e
  ↔ read_csv env f "," = None ∧ e = ReadError f.
Proof.
  unfold purchase_outcome. destruct (read_csv env f ","); split.
  - discriminate.
  - by intros [? _].
  - intros H. by injection H as <-.
  - by intros [_ ->].
Qed.

(** The loads raise the error of the first unreadable file, if any. *)
Lemma loads_outcome_first_unreadable p a c :
  loads_outcome env p a c
  = match first_unreadable env [a; c; p] with
    | Some f => Raised (ReadError f)
    | None => Returned ()
    end.
Proof.
  unfold loads_outcome, meta_outcome, purchase_outcome, first_unreadable.
  cbn [List.find].
  destruct (read_csv env a ","); simpl; [|done].
  destruct (read_csv env c ","); simpl; [|done].
  by destruct (read_csv env p ",").
Qed.

(** While a read fails, the [purchase] table is not written. *)
Lemma loads_store_purchase_unreadable dn p a c f s :
  first_unreadable env [a; c; p] = Some f →
  table "purchase" (loads_store env dn p a c s) = table "purchase" s.
Proof.
  unfold first_unreadable, loads_store, meta_outcome. cbn [List.find].
  assert (Hm : ∀ f' k s', k = "article" ∨ k = "customer" →
            table "purchase" (meta_store env dn f' k s') = table "purchase" s').
  { intros f' k s' [->| ->]; by apply meta_store_other. }
  destruct (read_csv env a ",") eqn:Ha; simpl.
  2: { intros _. unfold meta_store. by rewrite Ha. }
  destruct (read_csv env c ",") eqn:Hc; simpl.
  2: { intros _. rewrite !Hm by auto. done. }
  destruct (read_csv env p ",") eqn:Hp; simpl; [discriminate|].
  intros _. unfold purchase_store. rewrite Hp. by rewrite !Hm by auto.
Qed.

Lemma emitted_ingest_commits dn up p a c s n :
  ingest_outcome env dn p a c s ≠ Returned None →
  commits (ingest_events env dn up p a c s n) = 0.
Proof.
  intros Hnot. rewrite ingest_events_split.
  destruct (ingest_outcome env dn p a c s) as [[b|]|e]; try done;
    rewrite app_nil_r; apply body_commits, ingest_body_body.
Qed.

Lemma find_app_fresh {A} (P : A → bool) l x :
  List.find P l = None → List.find P (l ++ [x]) = if P x then Some x else None.
Proof.
  induction l as [|y l IH]; simpl; [done|].
  destruct (P y); [discriminate | exact IH].
Qed.

Lemma find_app_found {A} (P : A → bool) l x y :
  List.find P l = Some y → List.find P (l ++ [x]) = Some y.
Proof.
  induction l as [|z l IH]; simpl; [discriminate|].
  destruct (P z); [done | exact IH].
Qed.

End RunFacts.

(** X5. When the name is new and one of the three CSV files cannot be
    read, [addDataset] raises the read error of the first such file in the
    order article, customer, purchase.  The registrar's row is in the
    [dataset] table all the same, no purchase row has been written, and no
    commit was issued. *)
Theorem addDataset_unreadable_file (env : Env) dn up p a c f w :
  dn ∉ map name (dataset (store w)) →
  first_unreadable env [a; c; p] = Some f →
  let r := addDataset env dn up p a c w in
  r.1 = Raised (ReadError f)
  ∧ dataset (store r.2) = dataset (store w) ++ [mkDataset dn up]
  ∧ table "purchase" (store r.2) = table "purchase" (store w)
  ∧ commits (emitted w r.2) = 0.
Proof.
  intros Hnew Hf r. subst r. rewrite addDataset_run. cbn [fst snd store].
  rewrite emitted_app.
  assert (Hreg : registered dn (store w) = false).
  { destruct (registered dn (store w)) eqn:Hreg; [|done].
    apply registered_spec in Hreg. contradiction. }
  assert (Hout : ingest_outcome env dn p a c (store w) = Raised (ReadError f)).
  { unfold ingest_outcome.
    by rewrite Hreg, loads_outcome_first_unreadable, Hf. }
  split; [exact Hout|].
  unfold ingest_store. rewrite Hreg, loads_store_dataset.
  rewrite (loads_store_purchase_unreadable env dn p a c f) by done.
  unfold entry_store. rewrite Hreg.
  split; [reflexivity|]. split; [reflexivity|].
  apply emitted_ingest_commits. by rewrite Hout.
Qed.

(** X6. The coordinator does not look at what the loaders return.  When the
    name is new and the three files are readable but the article file has
    no [article_id], the customer file no [customer_id] and the purchase
    file lacks a required column, [addDataset] still returns [None] and
    commits once; the store has gained the dataset row and nothing else. *)
Theorem addDataset_completes_without_data (env : Env)
  dn up p a c dfa dfc dfp w :
  dn ∉ map name (dataset (store w)) →
  read_csv env a "," = Some dfa → "article_id" ∉ columns dfa →
  read_csv env c "," = Some dfc → "customer_id" ∉ columns dfc →
  read_csv env p "," = Some dfp →
  (∃ col, col ∈ required_columns ∧ col ∉ columns dfp) →
  let r := addDataset env dn up p a c w in
  r.1 = Returned None
  ∧ store r.2 = {| dataset := dataset (store w) ++ [mkDataset dn up];
                   relations := relations (store w) |}
  ∧ commits (emitted w r.2) = 1.
Proof.
  intros Hnew Ha Hida Hc Hidc Hp Hmiss r. subst r.
  rewrite addDataset_run. cbn [fst snd store]. rewrite emitted_app.
  assert (Hreg : registered dn (store w) = false).
  { destruct (registered dn (store w)) eqn:Hreg; [|done].
    apply registered_spec in Hreg. contradiction. }
  destruct (first_missing_some _ Hmiss) as (col & Hfirst & _ & _).
  assert (Hout : ingest_outcome env dn p a c (store w) = Returned None).
  { unfold ingest_outcome, loads_outcome, meta_outcome, purchase_outcome.
    by rewrite Hreg, Ha, Hc, Hp. }
  split; [exact Hout|]. split.
  - unfold ingest_store, loads_store, meta_outcome, meta_store,
      purchase_store, entry_store.
    rewrite Hreg, Ha, Hc, Hp, Hfirst.
    change (id_column "article") with "article_id".
    change (id_column "customer") with "customer_id".
    by rewrite !bool_decide_eq_false_2 by done.
  - rewrite ingest_events_split, Hout, commits_app.
    rewrite body_commits by apply ingest_body_body. reflexivity.
Qed.

(** X7. The file check is a report and nothing more: [check_files] looks
    every file up once, in the order given, logs "Could not find" for
    exactly the files that are not there, in that order, returns normally
    and leaves the store alone. *)
Theorem check_files_reports_missing (env : Env) fs w :
  let r := check_files env fs w in
  r.1 = Returned ()
  ∧ store r.2 = store w
  ∧ checked_files (emitted w r.2) = fs
  ∧ logged_errors (emitted w r.2)
    = map not_found_msg (List.filter (λ f, negb (is_file env f)) fs).
Proof.
  intros r. subst r. rewrite check_files_run. cbn [fst snd].
  unfold after. rewrite emitted_app. cbn [store].
  split; [reflexivity|]. split; [reflexivity|].
  unfold check_events, checked_files, logged_errors.
  split; induction fs as [|f fs IH]; simpl; try done.
  - rewrite flat_map_app, IH. by destruct (is_file env f).
  - rewrite flat_map_app, IH. by destruct (is_file env f).
Qed.

(** X13. Registration can be read back: after [__addDatasetEntry] for a
    name, the query for that name finds a row of that name (the row just
    inserted, with the given uploader, when the name was new), and the
    query for any other name answers as it did before. *)
Theorem addDatasetEntry_then_found dn up w :
  let w1 := (__addDatasetEntry dn up w).2 in
  (∃ row, (queryTable_first dn w1).1 = Returned (Some row) ∧ name row = dn)
  ∧ (dn ∉ map name (dataset (store w)) →
     (queryTable_first dn w1).1 = Returned (Some (mkDataset dn up)))
  ∧ ∀ dn', dn' ≠ dn →
      (queryTable_first dn' w1).1 = (queryTable_first dn' w).1.
Proof.
  intros w1. subst w1. rewrite addDatasetEntry_run. cbn [snd].
  unfold queryTable_first, get_store, mbind, M_bind, mret, M_ret, emit.
  cbn [fst store after]. unfold after; cbn [store].
  unfold entry_store, registered.
  set (P := λ n (r : DatasetRow), bool_decide (name r = n)).
  change (λ r : DatasetRow, bool_decide (name r = dn)) with (P dn).
  destruct (List.find (P dn) (dataset (store w))) as [row|] eqn:Hfind.
  - rewrite bool_decide_eq_true_2 by eauto. rewrite Hfind.
    split; [|split].
    + exists row. split; [done|]. apply find_some in Hfind as [_ Hrow].
      by apply bool_decide_eq_true in Hrow.
    + intros Hnew. exfalso. apply Hnew. apply find_some in Hfind as [Hin Hrow].
      apply bool_decide_eq_true in Hrow. subst dn.
      apply list_elem_of_In, in_map. exact Hin.
    + done.
  - rewrite bool_decide_eq_false_2 by (intros [x Hx]; discriminate).
    cbn [dataset]. rewrite (find_app_fresh (P dn)) by done.
    assert (HP : P dn (mkDataset dn up) = true)
      by (unfold P; cbn [name]; by rewrite bool_decide_eq_true_2).
    rewrite !HP.
    split; [|split].
    + by exists (mkDataset dn up).
    + done.
    + intros dn' Hne.
      change (λ r : DatasetRow, bool_decide (name r = dn')) with (P dn').
      destruct (List.find (P dn') (dataset (store w))) as [row'|] eqn:Hf'.
      * by rewrite (find_app_found (P dn') _ _ row').
      * rewrite (find_app_fresh (P dn')) by done. unfold P. cbn [name].
        by rewrite bool_decide_eq_false_2.
Qed.

Section LoadFacts.

Variable env : Env.

Lemma added_after t w s' evs :
  added t w (after w s' evs)
  = drop (length (table t (store w))) (table t s').
Proof. reflexivity. Qed.

(** What a metadata load that got past the header check appended. *)
Lemma meta_store_identity dn f k df s :
  read_csv env f "," = Some df → id_column k ∈ columns df →
  table k (meta_store env dn f k s)
  = table k s ++ map (mkBulk None) (rows (meta_data_table dn k df)).
Proof.
  intros Hread Hid. unfold meta_store.
  rewrite Hread, bool_decide_eq_true_2 by done.
  by rewrite attribute_steps_identity, table_copy_same.
Qed.

Lemma meta_store_attributes dn f k df s :
  read_csv env f "," = Some df → id_column k ∈ columns df →
  table (attribute_table k) (meta_store env dn f k s)
  = table (attribute_table k) s ++
    flat_map (λ a,
      let t := meta_data_attribute_table dn k df a in
      map (mkBulk (Some (columns t))) (rows t))
      (filter (λ a, a ≠ id_column k) (columns df)).
Proof.
  intros Hread Hid. unfold meta_store.
  rewrite Hread, bool_decide_eq_true_2 by done.
  rewrite attribute_steps_attribute.
  by rewrite table_copy_other by (intros E; by apply (attribute_table_other k)).
Qed.

(** A metadata load that did not get that far appended nothing. *)
Lemma meta_store_stopped dn f k s :
  (∀ df, read_csv env f "," = Some df → id_column k ∉ columns df) →
  meta_store env dn f k s = s.
Proof.
  intros Hstop. unfold meta_store.
  destruct (read_csv env f ",") as [df|]; [|done].
  by rewrite bool_decide_eq_false_2 by by apply Hstop.
Qed.

Lemma no_null_Forall r : no_null r = true → Forall is_Some r.
Proof.
  unfold no_null. rewrite forallb_forall, Forall_forall.
  intros H v Hv. apply list_elem_of_In in Hv.
  by apply H, bool_decide_eq_true in Hv.
Qed.

Lemma table_copy_empty df t t' cols s :
  rows df = [] → table t (copy_store df t' cols s) = table t s.
Proof.
  intros Hrows. destruct (decide (t' = t)) as [->|Hne].
  - by rewrite table_copy_same, Hrows, app_nil_r.
  - by rewrite table_copy_other.
Qed.

Lemma keep_first_all subset cols seen rs :
  NoDup (map (row_key subset cols) rs) →
  (∀ r, r ∈ rs → row_key subset cols r ∉ seen) →
  keep_first subset cols seen rs = rs.
Proof.
  revert seen. induction rs as [|r rs IH]; intros seen Hnd Hseen; [done|].
  cbn [map] in Hnd. apply NoDup_cons in Hnd as [Hr Hnd]. simpl.
  rewrite bool_decide_eq_false_2 by (apply Hseen; left).
  f_equal. apply IH; [done|].
  intros r' Hr' Hin. apply elem_of_cons in Hin as [E|Hin].
  - apply Hr. rewrite <- E. apply list_elem_of_In, in_map.
    by apply list_elem_of_In.
  - apply (Hseen r'); [by right | done].
Qed.

End LoadFacts.

(** X9. Every attribute row has its identity row: under a header with the
    [<kind>_id] column, each row that a metadata load appends to
    [<kind>_attribute] starts with an identity value and a dataset name
    that the same load appended, as a row, to [<kind>]. *)
Theorem addMetaDataset_attributes_have_identity (env : Env) dn f k df w b :
  read_csv env f "," = Some df →
  frame_wf df →
  id_column k ∈ columns df →
  let w' := (__addMetaDataset env dn f k w).2 in
  b ∈ added (attribute_table k) w w' →
  mkBulk None (take 2 (fields b)) ∈ added k w w'.
Proof.
  intros Hread Hwf Hid w'. subst w'.
  rewrite addMetaDataset_run. cbn [snd]. rewrite !added_after.
  rewrite (meta_store_identity env dn f k df) by done.
  rewrite (meta_store_attributes env dn f k df) by done.
  rewrite !drop_app_length, meta_data_table_rows by done. cbn [rows].
  intros Hb. apply list_elem_of_In, in_flat_map in Hb as (a & _ & Hb).
  cbv zeta in Hb. rewrite meta_data_attribute_table_rows in Hb by done.
  cbn [columns rows] in Hb.
  apply in_map_iff in Hb as (cells & <- & Hcells).
  apply filter_In in Hcells as [Hcells _].
  apply in_map_iff in Hcells as (r & <- & Hr).
  cbn [fields]. unfold attribute_cells. cbn [take].
  apply list_elem_of_In, in_map_iff.
  exists [cell_at (id_column k) df r; Some (VStr dn)].
  split; [reflexivity|]. apply in_map_iff. by exists r.
Qed.

(** X12. Everything a metadata load writes is scoped by the dataset: under
    a header with the [<kind>_id] column, each row appended to [<kind>] or
    to [<kind>_attribute] carries the dataset name of the call as its
    second field. *)
Theorem addMetaDataset_rows_carry_dataset_name (env : Env) dn f k df w b :
  read_csv env f "," = Some df →
  frame_wf df →
  id_column k ∈ columns df →
  let w' := (__addMetaDataset env dn f k w).2 in
  b ∈ added k w w' ∨ b ∈ added (attribute_table k) w w' →
  fields b !! 1 = Some (Some (VStr dn)).
Proof.
  intros Hread Hwf Hid w'. subst w'.
  rewrite addMetaDataset_run. cbn [snd]. rewrite !added_after.
  rewrite (meta_store_identity env dn f k df) by done.
  rewrite (meta_store_attributes env dn f k df) by done.
  rewrite !drop_app_length, meta_data_table_rows by done. cbn [rows].
  intros [Hb|Hb].
  - apply list_elem_of_In, in_map_iff in Hb as (cells & <- & Hcells).
    by apply in_map_iff in Hcells as (r & <- & _).
  - apply list_elem_of_In, in_flat_map in Hb as (a & _ & Hb).
    cbv zeta in Hb. rewrite meta_data_attribute_table_rows in Hb by done.
    cbn [columns rows] in Hb.
    apply in_map_iff in Hb as (cells & <- & Hcells).
    apply filter_In in Hcells as [Hcells _].
    by apply in_map_iff in Hcells as (r & <- & _).
Qed.

Section EmptyFrames.

Lemma assign_rows_nil c cols s : assign_rows c cols [] s = [].
Proof. reflexivity. Qed.

Lemma meta_data_table_empty dn k df :
  rows df = [] → rows (meta_data_table dn k df) = [].
Proof.
  intros H. unfold meta_data_table, assign, select; cbn [rows]. by rewrite H.
Qed.

Lemma meta_data_attribute_table_empty dn k df a :
  rows df = [] → rows (meta_data_attribute_table dn k df a) = [].
Proof.
  intros H. unfold meta_data_attribute_table, dropna, assign, assign_series,
    select; cbn [rows]. by rewrite H.
Qed.

Lemma attribute_steps_empty dn k df l t s :
  rows df = [] →
  table t (fold_left (λ s a, attribute_step dn k df a s) l s) = table t s.
Proof.
  intros H. revert s. induction l as [|a l IH]; intros s; simpl; [done|].
  rewrite IH. unfold attribute_step. case_bool_decide; [done|].
  by apply table_copy_empty, meta_data_attribute_table_empty.
Qed.

End EmptyFrames.

(** X11. A header-only metadata CSV is accepted and loads nothing: when the
    CSV has the [<kind>_id] column and no data row, [__addMetaDataset]
    returns true, every table holds what it held before, and it still
    issued one bulk copy for the identity table and one for each other
    column, each of zero rows. *)
Theorem addMetaDataset_header_only (env : Env) dn f k df w :
  read_csv env f "," = Some df →
  id_column k ∈ columns df →
  rows df = [] →
  let r := __addMetaDataset env dn f k w in
  r.1 = Returned true
  ∧ dataset (store r.2) = dataset (store w)
  ∧ (∀ t, table t (store r.2) = table t (store w))
  ∧ copy_sizes (emitted w r.2)
    = replicate (S (length (filter (λ a, a ≠ id_column k) (columns df)))) 0.
Proof.
  intros Hread Hid Hrows r. subst r.
  rewrite addMetaDataset_run. cbn [fst snd]. rewrite store_after.
  unfold after. rewrite emitted_app.
  unfold meta_outcome, meta_store, meta_events.
  rewrite Hread, !bool_decide_eq_true_2 by done.
  split; [reflexivity|].
  split; [by rewrite attribute_steps_dataset|].
  split.
  { intros t. rewrite attribute_steps_empty by done.
    by apply table_copy_empty, meta_data_table_empty. }
  cbn [app copy_sizes flat_map]. unfold copy_event at 1.
  rewrite meta_data_table_empty by done. cbn [length app replicate]. f_equal.
  clear Hid. induction (columns df) as [|a l IH]; [done|].
  cbn [flat_map]. rewrite flat_map_app, filter_cons.
  change (flat_map _ (flat_map (attribute_events dn k df) l))
    with (copy_sizes (flat_map (attribute_events dn k df) l)) in *.
  rewrite IH. unfold attribute_events. case_bool_decide as Ha.
  - rewrite decide_False by (intros Hn; by apply Hn). done.
  - rewrite decide_True by done. unfold copy_event.
    by rewrite meta_data_attribute_table_empty.
Qed.

(** ** Opening the connection: properties *)

Section ConnectionFacts.

Import Connection.

Variable lib : Sqla.

(** X14. [connect] reads two parameters only.  Two configurations that
    agree on [user] and [dbname] give the same result, whatever host, port
    or password they name; the URL always points at [localHost:5432]. *)
Theorem connect_reads_user_and_dbname
  (cfg cfg' : string → string → Error + gmap string string)
  (self : DatabaseConnection (E lib)) filename section params params' :
  cfg filename section = inr params →
  cfg' filename section = inr params' →
  params !! "user" = params' !! "user" →
  params !! "dbname" = params' !! "dbname" →
  connect (with_config lib cfg) self filename section
  = connect (with_config lib cfg') self filename section.
Proof.
  intros Hc Hc' Hu Hd. unfold connect, item. cbn [configDatabase with_config].
  by rewrite Hc, Hc', Hu, Hd.
Qed.

(** X15. [connect] is all or nothing.  When it returns, the engine, the
    session and the metadata of the object are bound to one engine, made
    in [batch] mode for the URL of the configured user and database; when
    it raises (no [user], no [dbname], or an error of a collaborator), the
    object is as it was, and a missing [user] is reported before a missing
    [dbname]. *)
Theorem connect_all_or_nothing (self : DatabaseConnection (E lib))
  filename section :
  let r := connect lib self filename section in
  (r.1 = None →
   ∃ eng params user dbname,
     connected r.2 eng
     ∧ configDatabase lib filename section = inr params
     ∧ params !! "user" = Some user ∧ params !! "dbname" = Some dbname
     ∧ url eng = engine_url user dbname
     ∧ executemany_mode eng = "batch")
  ∧ (r.1 ≠ None → r.2 = self)
  ∧ (∀ params, configDatabase lib filename section = inr params →
       params !! "user" = None → r.1 = Some (KeyError "user")).
Proof.
  intros r. subst r. unfold connect, item.
  destruct (configDatabase lib filename section) as [e|params] eqn:Hcfg.
  { split; [discriminate|]. split; [done|]. discriminate. }
  destruct (params !! "user") as [user|] eqn:Hu.
  2: { split; [discriminate|]. split; [done|].
       intros params' E. by injection E as <-. }
  destruct (params !! "dbname") as [dbname|] eqn:Hd.
  2: { split; [discriminate|]. split; [done|].
       intros params' E. injection E as <-. congruence. }
  destruct (create_engine lib _ _) as [e|h] eqn:Hmk.
  { split; [discriminate|]. split; [done|].
    intros params' E. injection E as <-. congruence. }
  split.
  - intros _. eexists _, params, user, dbname. cbn [fst snd].
    repeat split; done.
  - split; [done|]. intros params' E. injection E as <-. congruence.
Qed.

(** X16. An object that [connect] has not set up cannot be used:
    [getConnection] and [logVersion] raise [AttributeError] on it, and this
    is still so after a [connect] that raised.  After a [connect] that
    returned, neither raises [AttributeError]: each answers what the engine
    or the server answers. *)
Theorem methods_need_connect filename section :
  let r := connect lib (__init__ lib) filename section in
  (r.1 ≠ None →
   getConnection lib r.2 = inl (AttributeError "connect")
   ∧ logVersion lib r.2 = inl (AttributeError "execute"))
  ∧ (r.1 = None →
     ∃ eng, connected r.2 eng
       ∧ getConnection lib r.2 = engine_connect lib (handle eng)
       ∧ logVersion lib r.2
         = match server_version lib (handle eng) with
           | inl e => inl e
           | inr v => inr ("PostgreSQL database version:" +:+ v)
           end).
Proof.
  intros r. subst r. unfold connect, item.
  destruct (configDatabase lib filename section) as [e|params];
    [split; [done | discriminate]|].
  destruct (params !! "user") as [user|]; [|split; [done | discriminate]].
  destruct (params !! "dbname") as [dbname|]; [|split; [done | discriminate]].
  destruct (create_engine lib _ _) as [e|h]; [split; [done | discriminate]|].
  split; [intros H; by destruct H|].
  intros _. eexists. split; [repeat split|]; done.
Qed.

End ConnectionFacts.

(** ** The task that starts an ingestion: properties *)

Section TaskFacts.

Import Tasks.

Variable I : InsertDatasetClass.
Variable abs_path : string → string.

Ltac task_unfold :=
  cbv beta iota zeta delta
    [run_insert bind try_finally try_except call on_error Logger_logError
     raise ret fst snd].

(** Splits a computed trace into its last event and what precedes it. *)
Ltac split_last :=
  match goal with
  | |- ∃ pre, ?l = pre ++ [_] ∧ _ =>
      exists (removelast l); cbn [removelast]; split; [reflexivity|]
  end.

(** The events of [run_insert] do not depend on what happened before. *)
Lemma run_insert_frame (tr : list TaskEvent) (obj : Obj I) :
  run_insert I (tr, obj)
  = ((run_insert I ([], obj)).1,
     (tr ++ (run_insert I ([], obj)).2.1, (run_insert I ([], obj)).2.2)).
Proof.
  task_unfold.
  destruct (start_insert I obj) as [[err|] o1]; task_unfold; cbn [app].
  - destruct (cls err); task_unfold.
    + destruct (abort I o1) as [[e2|] o2]; task_unfold;
        destruct (cleanup I o2) as [[e3|] o3]; task_unfold; cbn [app];
        by rewrite <- ?app_assoc.
    + destruct (abort I o1) as [[e2|] o2]; task_unfold;
        destruct (cleanup I o2) as [[e3|] o3]; task_unfold; cbn [app];
        by rewrite <- ?app_assoc.
    + destruct (cleanup I o1) as [[e3|] o3]; task_unfold; cbn [app];
        by rewrite <- ?app_assoc.
  - destruct (cleanup I o1) as [[e3|] o3]; task_unfold; cbn [app];
      by rewrite <- ?app_assoc.
Qed.

(** X17. Once the object is built, [cleanup] is called exactly once, as the
    last thing the task does, whatever [start_insert], [abort] and
    [cleanup] do; [abort] is called exactly when [start_insert] raised an
    error that is an [Exception]. *)
Theorem insert_dataset_always_cleans_up user_id filenames csd obj :
  init I user_id (debug_filenames abs_path) debug_column_select_data
    = inr obj →
  let tr := (insert_dataset I abs_path user_id filenames csd).1.2 in
  ∃ pre, tr = pre ++ [TCleanup]
    ∧ (TCleanup ∉ pre)
    ∧ (TAbort ∈ pre
       ↔ ∃ err o1, start_insert I obj = (Some err, o1)
                   ∧ cls err ≠ NotException).
Proof.
  intros Hinit tr. subst tr. unfold insert_dataset. rewrite Hinit.
  rewrite run_insert_frame.
  task_unfold.
  assert (Hno : ∀ l : list TaskEvent,
            Forall (λ e, e ≠ TCleanup) l → TCleanup ∉ l).
  { intros l Hl Hin. rewrite Forall_forall in Hl. by apply (Hl _ Hin). }
  destruct (start_insert I obj) as [[err|] o1]; task_unfold; cbn [app].
  - destruct (cls err) eqn:Hcls; task_unfold.
    + destruct (abort I o1) as [[e2|] o2]; task_unfold;
        destruct (cleanup I o2) as [[e3|] o3]; task_unfold; cbn [app];
        split_last;
        (split; [apply Hno; by repeat constructor|]);
        (split; [intros _; eexists _, _; split; [done | congruence]
                | intros _; do 3 right; left]).
    + destruct (abort I o1) as [[e2|] o2]; task_unfold;
        destruct (cleanup I o2) as [[e3|] o3]; task_unfold; cbn [app];
        split_last;
        (split; [apply Hno; by repeat constructor|]);
        (split; [intros _; eexists _, _; split; [done | congruence]
                | intros _; do 3 right; left]).
    + destruct (cleanup I o1) as [[e3|] o3]; task_unfold; cbn [app];
        split_last;
        (split; [apply Hno; by repeat constructor|]);
        (split; [intros Hin;
                 repeat (apply elem_of_cons in Hin as [Hin|Hin];
                         [discriminate|]); inversion Hin
                | intros (err' & o' & E & Hne); injection E as <- <-;
                  congruence]).
  - destruct (cleanup I o1) as [[e3|] o3]; task_unfold; cbn [app];
      split_last;
      (split; [apply Hno; by repeat constructor|]);
      (split; [intros Hin;
               repeat (apply elem_of_cons in Hin as [Hin|Hin];
                       [discriminate|]); inversion Hin
              | intros (err' & o' & E & _); discriminate]).
Qed.

(** X18. An [Exception] raised by [start_insert] is handled and passed on:
    when [abort] and [cleanup] return, the task calls [abort], logs the text
    of the error, calls [cleanup] and raises that same error. *)
Theorem insert_dataset_reraises user_id filenames csd obj err o1 o2 o3 :
  init I user_id (debug_filenames abs_path) debug_column_select_data
    = inr obj →
  start_insert I obj = (Some err, o1) →
  cls err ≠ NotException →
  abort I o1 = (None, o2) →
  cleanup I o2 = (None, o3) →
  insert_dataset I abs_path user_id filenames csd
  = (inl err,
     [TPrint user_id filenames csd;
      TInit user_id (debug_filenames abs_path) debug_column_select_data;
      TStartInsert; TAbort; TLogError (str err); TCleanup],
     Some o3).
Proof.
  intros Hinit Hstart Hcls Habort Hclean.
  unfold insert_dataset. rewrite Hinit.
  task_unfold.
  rewrite Hstart. task_unfold.
  destruct (cls err); [| |done]; task_unfold; rewrite Habort; task_unfold;
    rewrite Hclean; reflexivity.
Qed.

(** X20. The task does not use the files and the column description it is
    given: they are printed, and the loader is built from the built-in H&M
    file names and description instead.  Two calls for the same user
    therefore have the same outcome, leave the same object and do the same
    things after the print. *)
Theorem insert_dataset_ignores_its_files user_id fn fn' csd csd' :
  let run := insert_dataset I abs_path user_id fn csd in
  let run' := insert_dataset I abs_path user_id fn' csd' in
  run.1.2 !! 0 = Some (TPrint user_id fn csd)
  ∧ run.1.2 !! 1
    = Some (TInit user_id (debug_filenames abs_path) debug_column_select_data)
  ∧ run.1.1 = run'.1.1
  ∧ run.2 = run'.2
  ∧ tail run.1.2 = tail run'.1.2.
Proof.
  intros run run'. subst run run'. unfold insert_dataset.
  destruct (init I user_id _ _) as [e|obj]; [done|].
  rewrite !(run_insert_frame (_ ++ _)).
  destruct (run_insert I ([], obj)) as [r [evs obj']]. cbn [fst snd].
  done.
Qed.

End TaskFacts.

(** ** The further properties on the fixtures *)

Lemma addDataset_keeps_names_unique_witness :
  NoDup (map name (dataset (store Fixtures.loaded)))
  ∧ NoDup (map name (dataset (store
      (addDataset Fixtures.disk "T1" "mosh" "purchases.csv" "articles.csv"
         "customers.csv" Fixtures.loaded).2))).
Proof.
  assert (H : NoDup (map name (dataset (store Fixtures.loaded))))
    by compute_done.
  split; [exact H|].
  exact (proj1 (addDataset_keeps_names_unique Fixtures.disk "T1" "mosh"
                  "purchases.csv" "articles.csv" "customers.csv"
                  Fixtures.loaded H)).
Defined.

(** The article file is missing: the run raises on it after the dataset
    row was written. *)
Lemma addDataset_unreadable_file_witness :
  ("T1" ∉ map name (dataset (store Fixtures.loaded)))
  ∧ first_unreadable Fixtures.disk ["missing.csv"; "customers.csv"; "purchases.csv"]
    = Some "missing.csv"
  ∧ (addDataset Fixtures.disk "T1" "mosh" "purchases.csv" "missing.csv"
       "customers.csv" Fixtures.loaded).1
    = Raised (ReadError "missing.csv").
Proof.
  assert (Hnew : "T1" ∉ map name (dataset (store Fixtures.loaded)))
    by compute_done.
  assert (Hf : first_unreadable Fixtures.disk
                 ["missing.csv"; "customers.csv"; "purchases.csv"]
               = Some "missing.csv") by reflexivity.
  split; [exact Hnew|]. split; [exact Hf|].
  exact (proj1 (addDataset_unreadable_file Fixtures.disk "T1" "mosh"
                  "purchases.csv" "missing.csv" "customers.csv" "missing.csv"
                  Fixtures.loaded Hnew Hf)).
Defined.

Lemma addDataset_completes_without_data_witness :
  ("T1" ∉ map name (dataset (store Fixtures.fresh)))
  ∧ (addDataset Fixtures.disk "T1" "mosh" "purchases_no_price.csv"
       "articles_no_id.csv" "articles_no_id.csv" Fixtures.fresh).1
    = Returned None
  ∧ store (addDataset Fixtures.disk "T1" "mosh" "purchases_no_price.csv"
             "articles_no_id.csv" "articles_no_id.csv" Fixtures.fresh).2
    = {| dataset := [mkDataset "T1" "mosh"]; relations := ∅ |}.
Proof.
  assert (Hnew : "T1" ∉ map name (dataset (store Fixtures.fresh)))
    by compute_done.
  assert (Ha : read_csv Fixtures.disk "articles_no_id.csv" ","
               = Some Fixtures.articles_no_id) by reflexivity.
  assert (Hp : read_csv Fixtures.disk "purchases_no_price.csv" ","
               = Some Fixtures.purchases_no_price) by reflexivity.
  assert (Hida : "article_id" ∉ columns Fixtures.articles_no_id)
    by compute_done.
  assert (Hidc : "customer_id" ∉ columns Fixtures.articles_no_id)
    by compute_done.
  assert (Hmiss : ∃ col, col ∈ required_columns
                         ∧ col ∉ columns Fixtures.purchases_no_price).
  { exists "price". split; compute_done. }
  pose proof (addDataset_completes_without_data Fixtures.disk "T1" "mosh"
                "purchases_no_price.csv" "articles_no_id.csv"
                "articles_no_id.csv" Fixtures.articles_no_id
                Fixtures.articles_no_id Fixtures.purchases_no_price
                Fixtures.fresh Hnew Ha Hida Ha Hidc Hp Hmiss)
    as (Hout & Hstore & _).
  split; [exact Hnew|]. split; [exact Hout|]. exact Hstore.
Defined.

Lemma articles_fixture_facts :
  read_csv Fixtures.disk "articles.csv" "," = Some Fixtures.articles
  ∧ frame_wf Fixtures.articles
  ∧ id_column "article" ∈ columns Fixtures.articles
  ∧ Fixtures.colour_of_article_1
    ∈ added (attribute_table "article") Fixtures.fresh
        (__addMetaDataset Fixtures.disk "H_M" "articles.csv" "article"
           Fixtures.fresh).2.
Proof.
  split; [reflexivity|]. split.
  { split; [compute_done|]. unfold frame_rect. by repeat constructor. }
  split; compute_done.
Defined.

Lemma addMetaDataset_attributes_have_identity_witness :
  Fixtures.colour_of_article_1
    ∈ added (attribute_table "article") Fixtures.fresh
        (__addMetaDataset Fixtures.disk "H_M" "articles.csv" "article"
           Fixtures.fresh).2
  ∧ mkBulk None (take 2 (fields Fixtures.colour_of_article_1))
    ∈ added "article" Fixtures.fresh
        (__addMetaDataset Fixtures.disk "H_M" "articles.csv" "article"
           Fixtures.fresh).2.
Proof.
  destruct articles_fixture_facts as (Hread & Hwf & Hid & Hb).
  split; [exact Hb|].
  exact (addMetaDataset_attributes_have_identity Fixtures.disk "H_M"
           "articles.csv" "article" Fixtures.articles Fixtures.fresh
           Fixtures.colour_of_article_1 Hread Hwf Hid Hb).
Defined.

Lemma addMetaDataset_rows_carry_dataset_name_witness :
  Fixtures.colour_of_article_1
    ∈ added (attribute_table "article") Fixtures.fresh
        (__addMetaDataset Fixtures.disk "H_M" "articles.csv" "article"
           Fixtures.fresh).2
  ∧ fields Fixtures.colour_of_article_1 !! 1 = Some (Some (VStr "H_M")).
Proof.
  destruct articles_fixture_facts as (Hread & Hwf & Hid & Hb).
  split; [exact Hb|].
  exact (addMetaDataset_rows_carry_dataset_name Fixtures.disk "H_M"
           "articles.csv" "article" Fixtures.articles Fixtures.fresh
           Fixtures.colour_of_article_1 Hread Hwf Hid (or_intror Hb)).
Defined.

Lemma addMetaDataset_header_only_witness :
  read_csv Fixtures.disk_with_empty "customers_empty.csv" ","
    = Some Fixtures.customers_header_only
  ∧ id_column "customer" ∈ columns Fixtures.customers_header_only
  ∧ rows Fixtures.customers_header_only = []
  ∧ (__addMetaDataset Fixtures.disk_with_empty "H_M" "customers_empty.csv"
       "customer" Fixtures.loaded).1 = Returned true
  ∧ copy_sizes (emitted Fixtures.loaded
      (__addMetaDataset Fixtures.disk_with_empty "H_M" "customers_empty.csv"
         "customer" Fixtures.loaded).2) = [0; 0; 0].
Proof.
  assert (Hread : read_csv Fixtures.disk_with_empty "customers_empty.csv" ","
                  = Some Fixtures.customers_header_only) by reflexivity.
  assert (Hid : id_column "customer" ∈ columns Fixtures.customers_header_only)
    by compute_done.
  assert (Hrows : rows Fixtures.customers_header_only = []) by reflexivity.
  pose proof (addMetaDataset_header_only Fixtures.disk_with_empty "H_M"
                "customers_empty.csv" "customer"
                Fixtures.customers_header_only Fixtures.loaded
                Hread Hid Hrows) as (Hout & _ & _ & Hsizes).
  split; [exact Hread|]. split; [exact Hid|]. split; [exact Hrows|].
  split; [exact Hout|]. exact Hsizes.
Defined.

Lemma connect_reads_user_and_dbname_witness :
  Connection.connect
    (Connection.with_config Fixtures.sqla Fixtures.config_local)
    (Connection.__init__ Fixtures.sqla) "database.ini" "postgresql"
  = Connection.connect
      (Connection.with_config Fixtures.sqla Fixtures.config_remote)
      (Connection.__init__ Fixtures.sqla) "database.ini" "postgresql".
Proof.
  exact (connect_reads_user_and_dbname Fixtures.sqla Fixtures.config_local
           Fixtures.config_remote (Connection.__init__ Fixtures.sqla)
           "database.ini" "postgresql" _ _ eq_refl eq_refl eq_refl eq_refl).
Defined.

Lemma insert_dataset_always_cleans_up_witness :
  Tasks.init Fixtures.rejecting_loader "u1"
    (Tasks.debug_filenames Fixtures.project_root)
    Tasks.debug_column_select_data = inr 0
  ∧ ∃ pre,
      (Tasks.insert_dataset Fixtures.rejecting_loader Fixtures.project_root
         "u1" [] (Tasks.PDict [])).1.2 = pre ++ [Tasks.TCleanup]
      ∧ (Tasks.TCleanup ∉ pre)
      ∧ (Tasks.TAbort ∈ pre
         ↔ ∃ err o1,
             Tasks.start_insert Fixtures.rejecting_loader 0 = (Some err, o1)
             ∧ Tasks.cls err ≠ Tasks.NotException).
Proof.
  split; [reflexivity|].
  exact (insert_dataset_always_cleans_up Fixtures.rejecting_loader
           Fixtures.project_root "u1" [] (Tasks.PDict []) 0 eq_refl).
Defined.

Lemma insert_dataset_reraises_witness :
  Tasks.insert_dataset Fixtures.rejecting_loader Fixtures.project_root
    "u1" [] (Tasks.PDict [])
  = (inl (Tasks.mkErr Tasks.ValueError "bad column"),
     [Tasks.TPrint "u1" [] (Tasks.PDict []);
      Tasks.TInit "u1" (Tasks.debug_filenames Fixtures.project_root)
        Tasks.debug_column_select_data;
      Tasks.TStartInsert; Tasks.TAbort; Tasks.TLogError "bad column";
      Tasks.TCleanup],
     Some 3).
Proof.
  refine (insert_dataset_reraises Fixtures.rejecting_loader
            Fixtures.project_root "u1" [] (Tasks.PDict []) 0
            (Tasks.mkErr Tasks.ValueError "bad column") 1 2 3
            eq_refl eq_refl _ eq_refl eq_refl).
  discriminate.
Defined.


(** ** The commit and what it makes durable *)

Section Durability.

Variable env : Env.










Lemma filter_copies_closing pre dn n :
  List.filter is_bulk_copy (pre ++ closing_events env dn n)
  = List.filter is_bulk_copy pre.
Proof. rewrite List.filter_app. simpl. by rewrite app_nil_r. Qed.

Lemma filter_filter_disjoint evs :
  List.filter is_bulk_copy (List.filter is_engine_insert evs) = [].
Proof.
  induction evs as [|e evs IH]; [done|]. by destruct e; simpl.
Qed.

End Durability.




(** ** The purchase key, read from the CSV *)

Section PurchaseKey.

Lemma pick_eq_iff P cols (r r' : list cell) :
  length r = length cols → length r' = length cols →
  pick P cols r = pick P cols r'
  ↔ ∀ i c, cols !! i = Some c → P c = true → r !! i = r' !! i.
Proof.
  revert r r'. induction cols as [|c cols IH]; intros r r' Hr Hr'.
  - split; [intros _ i c' Hi; inversion Hi | by destruct r, r'].
  - destruct r as [|v r]; [discriminate|].
    destruct r' as [|v' r']; [discriminate|].
    simpl in Hr, Hr'. cbn [pick].
    specialize (IH r r' ltac:(lia) ltac:(lia)).
    destruct (P c) eqn:HP.
    + split.
      * intros E. injection E as -> E. intros [|i] c' Hi Hc'; [done|].
        simpl in *. by eapply IH.
      * intros H. f_equal.
        -- specialize (H 0 c eq_refl HP). by injection H.
        -- apply IH. intros i c' Hi Hc'. by apply (H (S i) c').
    + rewrite IH. split.
      * intros H [|i] c' Hi Hc'; simpl in *; [|by eapply H].
        injection Hi as ->. by rewrite HP in Hc'.
      * intros H i c' Hi Hc'. by apply (H (S i) c').
Qed.

Lemma csv_cell_at_index df c (r : list cell) i :
  NoDup (columns df) → columns df !! i = Some c →
  csv_cell df c r = default None (r !! i).
Proof.
  intros Hnd Hi. unfold csv_cell.
  destruct (list_find (λ x, x = c) (columns df)) as [[j x]|] eqn:Hfind.
  - apply list_find_Some in Hfind as (Hj & -> & _).
    by rewrite (NoDup_lookup _ _ _ _ Hnd Hj Hi).
  - apply list_find_None in Hfind. rewrite Forall_forall in Hfind.
    exfalso. apply (Hfind c); [|done]. by eapply list_elem_of_lookup_2.
Qed.

Lemma csv_cell_absent df c (r : list cell) :
  c ∉ columns df → csv_cell df c r = None.
Proof.
  intros Hc. unfold csv_cell.
  destruct (list_find (λ x, x = c) (columns df)) as [[j x]|] eqn:Hfind; [|done].
  apply list_find_Some in Hfind as (Hj & -> & _).
  exfalso. apply Hc. by eapply list_elem_of_lookup_2.
Qed.

(** Two rows have the same cell under a column of the header exactly when
    they agree at its position. *)
Lemma csv_cell_eq_iff df c (r r' : list cell) i :
  NoDup (columns df) → columns df !! i = Some c →
  length r = length (columns df) → length r' = length (columns df) →
  csv_cell df c r = csv_cell df c r' ↔ r !! i = r' !! i.
Proof.
  intros Hnd Hi Hr Hr'. rewrite !(csv_cell_at_index df c _ i) by done.
  assert (Hlt : (i < length (columns df))%nat) by by eapply lookup_lt_Some.
  destruct (lookup_lt_is_Some_2 r i ltac:(lia)) as [v Hv].
  destruct (lookup_lt_is_Some_2 r' i ltac:(lia)) as [v' Hv'].
  unfold cell in *. rewrite Hv, Hv'.
  simpl. split; [by intros -> | by intros [= ->]].
Qed.

Lemma set_label_lookup c cols i (x : string) :
  set_label c cols !! i = Some x → x = c ∨ cols !! i = Some x.
Proof.
  unfold set_label. case_bool_decide as Hc; [by right|].
  intros H. apply lookup_app_Some in H as [H|[_ H]]; [by right|].
  left. destruct (i - length cols)%nat; [by injection H | done].
Qed.

Lemma set_label_lookup_old c cols i (x : string) :
  cols !! i = Some x → set_label c cols !! i = Some x.
Proof.
  intros H. unfold set_label. case_bool_decide as Hc; [done|].
  by apply lookup_app_l_Some.
Qed.

Lemma relabel_in_subset x :
  x ≠ "dataset_name" →
  relabel x ∈ purchase_subset
  ↔ x ∈ ["customer_id"; "article_id"; "t_dat"; "timestamp"].
Proof.
  intros Hne. unfold relabel, purchase_subset. case_bool_decide as Ht.
  - subst x. split; intros _; [do 2 right; left | do 3 right; left].
  - rewrite !elem_of_cons, !elem_of_nil. tauto.
Qed.

(** The key the code compares and the key read from the CSV tell the same
    rows apart. *)
Lemma purchase_key_agrees dn df (r r' : list cell) :
  NoDup (columns df) →
  length r = length (columns df) → length r' = length (columns df) →
  let cols := columns (purchase_named dn df) in
  let put := set_cell "dataset_name" (Some (VStr dn)) (columns df) in
  row_key purchase_subset cols (put r) = row_key purchase_subset cols (put r')
  ↔ purchase_key df r = purchase_key df r'.
Proof.
  intros Hnd Hr Hr' cols put. subst cols put.
  unfold row_key, purchase_named, rename, assign. cbn [columns].
  change (map (λ c, if bool_decide (c = "t_dat") then "timestamp" else c))
    with (map relabel).
  rewrite pick_eq_iff
    by (rewrite length_map; by apply set_cell_length).
  assert (Hkey : purchase_key df r = purchase_key df r'
            ↔ ∀ x, x ∈ ["customer_id"; "article_id"; "t_dat"; "timestamp"] →
                   csv_cell df x r = csv_cell df x r').
  { unfold purchase_key. cbn [map]. split.
    - intros E x Hx. injection E as E1 E2 E3 E4.
      repeat (apply elem_of_cons in Hx as [->|Hx]; [done|]). inversion Hx.
    - intros H. f_equal; [apply H; left|].
      f_equal; [apply H; right; left|].
      f_equal; [apply H; do 2 right; left|].
      f_equal. apply H. do 3 right. left. }
  rewrite Hkey. split.
  - intros Hcode x Hx.
    destruct (decide (x ∈ columns df)) as [Hin|Hout];
      [|by rewrite !csv_cell_absent].
    apply list_elem_of_lookup in Hin as [i Hi].
    assert (Hne : x ≠ "dataset_name").
    { intros ->. repeat (apply elem_of_cons in Hx as [?|Hx]; [done|]).
      inversion Hx. }
    rewrite (csv_cell_eq_iff df x r r' i) by done.
    specialize (Hcode i (relabel x)).
    rewrite !(set_cell_lookup_other _ _ _ _ i x) in Hcode by done.
    apply Hcode.
    + change (map relabel ?l) with (relabel <$> l).
      by rewrite list_lookup_fmap, (set_label_lookup_old _ _ _ x).
    + unfold in_labels. apply bool_decide_eq_true. by apply relabel_in_subset.
  - intros Hcsv i c' Hi Hc'.
    change (map relabel ?l) with (relabel <$> l) in Hi.
    rewrite list_lookup_fmap in Hi.
    destruct (set_label "dataset_name" (columns df) !! i) as [x|] eqn:Hx;
      [|discriminate].
    simpl in Hi. injection Hi as <-.
    destruct (decide (x = "dataset_name")) as [->|Hne].
    + by rewrite !set_cell_lookup_label.
    + destruct (set_label_lookup _ _ _ _ Hx) as [?|Hold]; [done|].
      rewrite !(set_cell_lookup_other _ _ _ _ i x) by done.
      apply (csv_cell_eq_iff df x r r' i); [done..|].
      apply Hcsv. apply relabel_in_subset; [done|].
      unfold in_labels in Hc'. by apply bool_decide_eq_true in Hc'.
Qed.

End PurchaseKey.

Section FirstPerKey.

Variable key : list cell → list cell.

Lemma first_per_key_sublist seen rs :
  first_per_key key seen rs `sublist_of` rs.
Proof.
  revert seen. induction rs as [|r rs IH]; intros seen; simpl; [constructor|].
  case_bool_decide.
  - apply sublist_cons, IH.
  - apply sublist_skip, IH.
Qed.

Lemma first_per_key_keys seen rs :
  NoDup (map key (first_per_key key seen rs))
  ∧ ∀ k, k ∈ map key (first_per_key key seen rs) → k ∉ seen.
Proof.
  revert seen. induction rs as [|r rs IH]; intros seen; simpl.
  - split; [constructor | intros k Hk; inversion Hk].
  - case_bool_decide as Hseen; [apply IH|].
    destruct (IH (key r :: seen)) as [Hnd Hout].
    cbn [map]. split.
    + apply NoDup_cons. split; [|done].
      intros Hin. apply Hout in Hin. apply Hin. left.
    + intros k Hk. apply elem_of_cons in Hk as [->|Hk]; [done|].
      apply Hout in Hk. intros Hs. apply Hk. by right.
Qed.

Lemma first_per_key_covers seen rs r :
  r ∈ rs → key r ∈ seen ∨ key r ∈ map key (first_per_key key seen rs).
Proof.
  revert seen. induction rs as [|r0 rs IH]; intros seen Hr; [inversion Hr|].
  simpl. apply elem_of_cons in Hr as [->|Hr].
  - case_bool_decide; [by left|]. right. left.
  - case_bool_decide as Hseen; [by apply IH|].
    destruct (IH (key r0 :: seen) Hr) as [Hin|Hin].
    + apply elem_of_cons in Hin as [->|Hin]; [right; left | by left].
    + right. by right.
Qed.

Lemma first_per_key_first seen rs r :
  r ∈ first_per_key key seen rs →
  (key r ∉ seen)
  ∧ List.find (λ x, bool_decide (key x = key r)) rs = Some r.
Proof.
  revert seen. induction rs as [|r0 rs IH]; intros seen Hr; [inversion Hr|].
  simpl in Hr. cbn [List.find]. case_bool_decide as Hseen.
  - destruct (IH _ Hr) as [Hout Hfind]. split; [done|].
    rewrite bool_decide_eq_false_2; [done|].
    intros E. apply Hout. by rewrite <- E.
  - apply elem_of_cons in Hr as [->|Hr].
    + split; [done|]. by rewrite bool_decide_eq_true_2.
    + destruct (IH _ Hr) as [Hout Hfind]. split.
      * intros Hs. apply Hout. by right.
      * rewrite bool_decide_eq_false_2; [done|].
        intros E. apply Hout. rewrite <- E. left.
Qed.

Lemma first_per_key_length rs :
  length (first_per_key key [] rs) = length (remove_dups (map key rs)).
Proof.
  rewrite <- (length_map key (first_per_key key [] rs)).
  apply Permutation_length, NoDup_Permutation.
  - apply first_per_key_keys.
  - apply NoDup_remove_dups.
  - intros k. rewrite elem_of_remove_dups. split.
    + intros Hk. apply list_elem_of_In, in_map_iff in Hk as (r & <- & Hr).
      apply list_elem_of_In, in_map. apply list_elem_of_In.
      apply list_elem_of_In in Hr.
      eapply elem_of_sublist; [exact Hr | apply first_per_key_sublist].
    + intros Hk. apply list_elem_of_In, in_map_iff in Hk as (r & <- & Hr).
      apply list_elem_of_In in Hr.
      destruct (first_per_key_covers [] rs r Hr) as [Hin|Hin];
        [inversion Hin | done].
Qed.

Lemma first_per_key_all seen rs :
  NoDup (map key rs) → (∀ r, r ∈ rs → key r ∉ seen) →
  first_per_key key seen rs = rs.
Proof.
  revert seen. induction rs as [|r rs IH]; intros seen Hnd Hseen; [done|].
  cbn [map] in Hnd. apply NoDup_cons in Hnd as [Hr Hnd]. simpl.
  rewrite bool_decide_eq_false_2 by (apply Hseen; left).
  f_equal. apply IH; [done|].
  intros r' Hr' Hin. apply elem_of_cons in Hin as [E|Hin].
  - apply Hr. rewrite <- E. apply list_elem_of_In, in_map.
    by apply list_elem_of_In.
  - apply (Hseen r'); [by right | done].
Qed.

(** The code's pass over the rows it built and the pass over the CSV rows
    keep the same rows, as long as the two keys tell the same rows apart. *)
Lemma keep_first_by_key subset cols (put : list cell → list cell) ss rs :
  (∀ r r', r ∈ ss ++ rs → r' ∈ ss ++ rs →
     row_key subset cols (put r) = row_key subset cols (put r')
     ↔ key r = key r') →
  keep_first subset cols (map (λ r, row_key subset cols (put r)) ss)
    (map put rs)
  = map put (first_per_key key (map key ss) rs).
Proof.
  revert ss. induction rs as [|r rs IH]; intros ss Hagree; [done|].
  cbn [map keep_first first_per_key].
  assert (Hmem : row_key subset cols (put r)
                   ∈ map (λ r, row_key subset cols (put r)) ss
                 ↔ key r ∈ map key ss).
  { split; intros Hin; apply list_elem_of_In, in_map_iff in Hin
      as (s & E & Hs); apply list_elem_of_In, in_map_iff; exists s;
      (split; [|done]); apply list_elem_of_In in Hs;
      (apply (Hagree s r); [apply elem_of_app; by left
                           | apply elem_of_app; right; left | done]). }
  case_bool_decide as Hc; case_bool_decide as Hs; try tauto.
  - apply IH. intros x x' Hx Hx'. apply Hagree.
    + apply elem_of_app in Hx as [Hx|Hx]; apply elem_of_app;
        [by left | right; by right].
    + apply elem_of_app in Hx' as [Hx'|Hx']; apply elem_of_app;
        [by left | right; by right].
  - cbn [map]. f_equal. specialize (IH (r :: ss)). cbn [map] in IH. apply IH.
    intros x x' Hx Hx'. apply Hagree.
    + apply elem_of_app. apply elem_of_app in Hx as [Hx|Hx].
      * apply elem_of_cons in Hx as [->|Hx]; [right; left | by left].
      * right. by right.
    + apply elem_of_app. apply elem_of_app in Hx' as [Hx'|Hx'].
      * apply elem_of_cons in Hx' as [->|Hx']; [right; left | by left].
      * right. by right.
Qed.

End FirstPerKey.

Section PurchaseFrame.

Lemma overwrite_insert c v cols (r : list cell) i :
  NoDup cols → cols !! i = Some c → length r = length cols →
  overwrite c v cols r = <[i := v]> r.
Proof.
  intros Hnd Hi Hlen. apply list_eq. intros j.
  destruct (decide (j = i)) as [->|Hne].
  - rewrite (overwrite_lookup_label c v cols r i) by done.
    rewrite list_lookup_insert_eq; [done|].
    rewrite Hlen. by eapply lookup_lt_Some.
  - rewrite list_lookup_insert_ne by done.
    destruct (cols !! j) as [x|] eqn:Hj.
    + apply (overwrite_lookup_other c v cols r j x); [done|].
      intros ->. apply Hne. by eapply NoDup_lookup.
    + apply lookup_ge_None in Hj.
      rewrite !lookup_ge_None_2; [done | lia |].
      rewrite overwrite_length. lia.
Qed.

(** Attaching the dataset name, as the code does it and as it reads in
    terms of the CSV row. *)
Lemma set_cell_with_dataset_name dn df (r : list cell) :
  NoDup (columns df) → length r = length (columns df) →
  set_cell "dataset_name" (Some (VStr dn)) (columns df) r
  = with_dataset_name dn df r.
Proof.
  intros Hnd Hlen. unfold set_cell, with_dataset_name.
  destruct (list_find (λ x, x = "dataset_name") (columns df))
    as [[i x]|] eqn:Hfind.
  - apply list_find_Some in Hfind as (Hi & -> & _).
    rewrite bool_decide_eq_true_2 by by eapply list_elem_of_lookup_2.
    by apply overwrite_insert.
  - apply list_find_None in Hfind. rewrite Forall_forall in Hfind.
    rewrite bool_decide_eq_false_2; [done|].
    intros Hin. by apply (Hfind _ Hin).
Qed.

(** The frame of the purchase load, in terms of the CSV: its rows are the
    first CSV row of every key, with the dataset name put in. *)
Lemma purchase_data_table_rows dn df :
  frame_wf df →
  rows (purchase_data_table dn df)
  = map (with_dataset_name dn df)
      (first_per_key (purchase_key df) [] (rows df)).
Proof.
  intros [Hnd Hrect]. unfold frame_rect in Hrect.
  rewrite Forall_forall in Hrect.
  rewrite purchase_data_table_named.
  unfold drop_duplicates. cbn [rows].
  change (rows (purchase_named dn df))
    with (map (set_cell "dataset_name" (Some (VStr dn)) (columns df))
            (rows df)).
  rewrite (keep_first_by_key (purchase_key df) _ _ _ [] (rows df)).
  - apply map_ext_in. intros r Hr.
    apply set_cell_with_dataset_name; [done|].
    apply Hrect. apply list_elem_of_In in Hr.
    eapply elem_of_sublist; [exact Hr | apply first_per_key_sublist].
  - intros r r' Hr Hr'. cbn [app] in Hr, Hr'.
    apply (purchase_key_agrees dn df r r'); [done | by apply Hrect..].
Qed.

End PurchaseFrame.

(** ** The purchase load, in terms of the CSV *)

Section PurchaseLoad.

Variable env : Env.

(** What a purchase load that got past the header check did: one bulk copy
    for [purchase], of the first CSV row of every key with the dataset name
    put in, under the relabelled header. *)
Lemma purchase_handed dn f df w :
  read_csv env f "," = Some df →
  frame_wf df →
  (∀ c, c ∈ required_columns → c ∈ columns df) →
  let r := __addPurchasesDataset env dn f w in
  let kept := first_per_key (purchase_key df) [] (rows df) in
  let cols := map relabel (columns df)
              ++ (if bool_decide ("dataset_name" ∈ columns df) then []
                  else ["dataset_name"]) in
  r.1 = Returned true
  ∧ emitted w r.2
    = [EvReflect; EvCursor; EvReadCsv f ",";
       EvCopyFrom "purchase" (Some cols) (length kept)]
  ∧ added "purchase" w r.2
    = map (mkBulk (Some cols)) (map (with_dataset_name dn df) kept).
Proof.
  intros Hread Hwf Hreq r kept cols. subst r kept cols.
  rewrite (purchase_run env dn f df w Hread Hreq). cbn [fst snd]. cbv zeta.
  rewrite added_after, table_copy_same, drop_app_length.
  unfold after. rewrite emitted_app. unfold copy_event.
  rewrite columns_purchase_data_table, (purchase_data_table_rows dn df Hwf).
  by rewrite length_map.
Qed.

(** Without a [timestamp] column of its own in the CSV, the key of a row is
    its three cells under [customer_id], [article_id] and [t_dat]. *)
Lemma purchase_key_positions df i j k (x y : list cell) :
  NoDup (columns df) →
  columns df !! i = Some "customer_id" →
  columns df !! j = Some "article_id" →
  columns df !! k = Some "t_dat" →
  "timestamp" ∉ columns df →
  length x = length (columns df) → length y = length (columns df) →
  purchase_key df x = purchase_key df y
  ↔ x !! i = y !! i ∧ x !! j = y !! j ∧ x !! k = y !! k.
Proof.
  intros Hnd Hi Hj Hk Hts Hx Hy. unfold purchase_key. cbn [map].
  rewrite !(csv_cell_absent df "timestamp") by done.
  rewrite <- (csv_cell_eq_iff df "customer_id" x y i) by done.
  rewrite <- (csv_cell_eq_iff df "article_id" x y j) by done.
  rewrite <- (csv_cell_eq_iff df "t_dat" x y k) by done.
  split.
  - intros E. by injection E as -> -> ->.
  - by intros (-> & -> & ->).
Qed.

Lemma required_in_fixture (df : DataFrame) :
  forallb (λ c, bool_decide (c ∈ columns df)) required_columns = true →
  ∀ c, c ∈ required_columns → c ∈ columns df.
Proof.
  intros H c Hc. rewrite forallb_forall in H.
  apply list_elem_of_In, H in Hc. by apply bool_decide_eq_true in Hc.
Qed.

End PurchaseLoad.

(** C4. For a purchase CSV with the four required columns,
    [__addPurchasesDataset] returns [True] and hands to the bulk copy for
    [purchase], in file order and with the dataset name put in, exactly the
    CSV rows whose key no earlier row of the file has.  The key of a row is
    read off the CSV itself: its cells under [customer_id], [article_id]
    and [t_dat] (the column the frame labels [timestamp]); the dataset name
    is the same on every row and tells no two rows apart.  So the rows
    handed over have pairwise distinct keys, every key of the file is the
    key of one of them, each of them is the first row of the file with its
    key, and their number is the number of distinct keys of the file.
    Dropped rows leave no trace: the load logs nothing and issues this one
    copy. *)
Theorem addPurchasesDataset_keeps_first_per_key (env : Env) dn f df w :
  read_csv env f "," = Some df →
  frame_wf df →
  (∀ c, c ∈ required_columns → c ∈ columns df) →
  let r := __addPurchasesDataset env dn f w in
  let kept := first_per_key (purchase_key df) [] (rows df) in
  r.1 = Returned true
  ∧ map fields (added "purchase" w r.2) = map (with_dataset_name dn df) kept
  ∧ kept `sublist_of` rows df
  ∧ NoDup (map (purchase_key df) kept)
  ∧ (∀ x, x ∈ rows df →
       ∃ y, y ∈ kept ∧ purchase_key df y = purchase_key df x)
  ∧ (∀ y, y ∈ kept →
       List.find (λ x, bool_decide (purchase_key df x = purchase_key df y))
         (rows df) = Some y)
  ∧ length kept = length (remove_dups (map (purchase_key df) (rows df)))
  ∧ (∀ i j k x y,
       columns df !! i = Some "customer_id" →
       columns df !! j = Some "article_id" →
       columns df !! k = Some "t_dat" →
       "timestamp" ∉ columns df →
       x ∈ rows df → y ∈ rows df →
       purchase_key df x = purchase_key df y
       ↔ x !! i = y !! i ∧ x !! j = y !! j ∧ x !! k = y !! k)
  ∧ copy_sizes (emitted w r.2) = [length kept]
  ∧ logged_errors (emitted w r.2) = [].
Proof.
  intros Hread Hwf Hreq r kept.
  destruct (purchase_handed env dn f df w Hread Hwf Hreq)
    as (Hret & Hevs & Hadded).
  fold r in Hret, Hevs, Hadded. fold kept in Hevs, Hadded.
  split; [exact Hret|]. split.
  { rewrite Hadded, map_map. cbn [fields]. apply map_id. }
  split; [apply first_per_key_sublist|].
  split; [apply first_per_key_keys|].
  split.
  { intros x Hx.
    destruct (first_per_key_covers (purchase_key df) [] _ x Hx) as [Hin|Hin];
      [inversion Hin|].
    apply list_elem_of_In, in_map_iff in Hin as (y & E & Hy).
    exists y. split; [by apply list_elem_of_In | done]. }
  split.
  { intros y Hy. by apply (first_per_key_first (purchase_key df) []). }
  split; [apply first_per_key_length|].
  split.
  { intros i j k x y Hi Hj Hk Hts Hx Hy.
    destruct Hwf as [Hnd Hrect]. unfold frame_rect in Hrect.
    rewrite Forall_forall in Hrect.
    apply purchase_key_positions; auto. }
  rewrite Hevs. split; reflexivity.
Qed.

(** Five purchases of which the fourth is the second once more: four rows
    are handed over.  Five purchases of which the fourth has the customer,
    article and date of the second at another price, and the fifth their
    customer and article on another date: the fourth is dropped, the fifth
    is kept. *)
Lemma addPurchasesDataset_keeps_first_per_key_witness :
  (length (rows Fixtures.purchases_exact) = 5
   ∧ rows Fixtures.purchases_exact !! 3 = rows Fixtures.purchases_exact !! 1
   ∧ map fields
       (added "purchase" Fixtures.fresh
          (__addPurchasesDataset Fixtures.purchase_disk "H_M"
             "purchases_exact.csv" Fixtures.fresh).2)
     = [[Fixtures.int 10; Fixtures.int 1; Fixtures.str "9.99";
         Fixtures.str "2020-01-01"; Fixtures.str "H_M"];
        [Fixtures.int 10; Fixtures.int 2; Fixtures.str "19.99";
         Fixtures.str "2020-01-02"; Fixtures.str "H_M"];
        [Fixtures.int 11; Fixtures.int 2; Fixtures.str "19.99";
         Fixtures.str "2020-01-02"; Fixtures.str "H_M"];
        [Fixtures.int 11; Fixtures.int 3; Fixtures.str "4.50";
         Fixtures.str "2020-01-03"; Fixtures.str "H_M"]]
   ∧ copy_sizes
       (emitted Fixtures.fresh
          (__addPurchasesDataset Fixtures.purchase_disk "H_M"
             "purchases_exact.csv" Fixtures.fresh).2) = [4])
  ∧ (length (rows Fixtures.purchases_keyed) = 5
     ∧ map fields
         (added "purchase" Fixtures.fresh
            (__addPurchasesDataset Fixtures.purchase_disk "H_M"
               "purchases_keyed.csv" Fixtures.fresh).2)
       = [[Fixtures.int 10; Fixtures.int 1; Fixtures.str "9.99";
           Fixtures.str "2020-01-01"; Fixtures.str "H_M"];
          [Fixtures.int 10; Fixtures.int 2; Fixtures.str "19.99";
           Fixtures.str "2020-01-02"; Fixtures.str "H_M"];
          [Fixtures.int 11; Fixtures.int 2; Fixtures.str "19.99";
           Fixtures.str "2020-01-02"; Fixtures.str "H_M"];
          [Fixtures.int 10; Fixtures.int 2; Fixtures.str "19.99";
           Fixtures.str "2020-01-03"; Fixtures.str "H_M"]]).
Proof.
  assert (Hwf : ∀ df, bool_decide (NoDup (columns df)) = true →
                 forallb (λ r, bool_decide (length r = length (columns df)))
                   (rows df) = true → frame_wf df).
  { intros df Hnd Hrect. split; [by apply bool_decide_eq_true in Hnd|].
    unfold frame_rect. rewrite Forall_forall. intros r Hr.
    rewrite forallb_forall in Hrect.
    apply list_elem_of_In, Hrect in Hr. by apply bool_decide_eq_true in Hr. }
  pose proof (addPurchasesDataset_keeps_first_per_key Fixtures.purchase_disk
                "H_M" "purchases_exact.csv" Fixtures.purchases_exact
                Fixtures.fresh eq_refl
                (Hwf Fixtures.purchases_exact eq_refl eq_refl)
                (required_in_fixture Fixtures.purchases_exact eq_refl))
    as (_ & Hrows & _ & _ & _ & _ & _ & _ & Hsize & _).
  pose proof (addPurchasesDataset_keeps_first_per_key Fixtures.purchase_disk
                "H_M" "purchases_keyed.csv" Fixtures.purchases_keyed
                Fixtures.fresh eq_refl
                (Hwf Fixtures.purchases_keyed eq_refl eq_refl)
                (required_in_fixture Fixtures.purchases_keyed eq_refl))
    as (_ & Hrows' & _).
  cbv zeta in Hrows, Hsize, Hrows'.
  split.
  - split; [reflexivity|]. split; [reflexivity|]. split.
    + rewrite Hrows. reflexivity.
    + rewrite Hsize. reflexivity.
  - split; [reflexivity|]. rewrite Hrows'. reflexivity.
Defined.

(** X8. A purchase CSV in which every row differs from every other in its
    customer, article or date cell is handed to the bulk copy whole: every
    row, in file order, with the dataset name put in. *)
Theorem addPurchasesDataset_distinct_keys_all_load (env : Env) dn f df w :
  read_csv env f "," = Some df →
  frame_wf df →
  (∀ c, c ∈ required_columns → c ∈ columns df) →
  NoDup (map (purchase_key df) (rows df)) →
  let r := __addPurchasesDataset env dn f w in
  r.1 = Returned true
  ∧ map fields (added "purchase" w r.2)
    = map (with_dataset_name dn df) (rows df)
  ∧ copy_sizes (emitted w r.2) = [length (rows df)].
Proof.
  intros Hread Hwf Hreq Hkeys r.
  destruct (purchase_handed env dn f df w Hread Hwf Hreq)
    as (Hret & Hevs & Hadded).
  fold r in Hret, Hevs, Hadded.
  assert (Hall : first_per_key (purchase_key df) [] (rows df) = rows df).
  { apply first_per_key_all; [done|]. intros x _ Hin. inversion Hin. }
  rewrite Hall in Hevs, Hadded.
  split; [exact Hret|]. split.
  - rewrite Hadded, map_map. cbn [fields]. apply map_id.
  - by rewrite Hevs.
Qed.

(** Three purchases of one customer and one article on three dates: all
    three are handed over. *)
Lemma addPurchasesDataset_distinct_keys_all_load_witness :
  length (rows Fixtures.purchases_distinct) = 3
  ∧ map (csv_cell Fixtures.purchases_distinct "customer_id")
      (rows Fixtures.purchases_distinct)
    = [Fixtures.int 10; Fixtures.int 10; Fixtures.int 10]
  ∧ map (csv_cell Fixtures.purchases_distinct "article_id")
      (rows Fixtures.purchases_distinct)
    = [Fixtures.int 1; Fixtures.int 1; Fixtures.int 1]
  ∧ map fields
      (added "purchase" Fixtures.fresh
         (__addPurchasesDataset Fixtures.purchase_disk "H_M"
            "purchases_distinct.csv" Fixtures.fresh).2)
    = [[Fixtures.str "2020-01-01"; Fixtures.int 10; Fixtures.int 1;
        Fixtures.str "9.99"; Fixtures.str "H_M"];
       [Fixtures.str "2020-01-02"; Fixtures.int 10; Fixtures.int 1;
        Fixtures.str "9.99"; Fixtures.str "H_M"];
       [Fixtures.str "2020-01-03"; Fixtures.int 10; Fixtures.int 1;
        Fixtures.str "9.99"; Fixtures.str "H_M"]]
  ∧ copy_sizes
      (emitted Fixtures.fresh
         (__addPurchasesDataset Fixtures.purchase_disk "H_M"
            "purchases_distinct.csv" Fixtures.fresh).2) = [3].
Proof.
  assert (Hwf : frame_wf Fixtures.purchases_distinct).
  { split; [apply (bool_decide_unpack _); by vm_compute|].
    unfold frame_rect. by repeat constructor. }
  assert (Hkeys : NoDup (map (purchase_key Fixtures.purchases_distinct)
                           (rows Fixtures.purchases_distinct))).
  { apply (bool_decide_unpack _). by vm_compute. }
  pose proof (addPurchasesDataset_distinct_keys_all_load
                Fixtures.purchase_disk "H_M" "purchases_distinct.csv"
                Fixtures.purchases_distinct Fixtures.fresh eq_refl Hwf
                (required_in_fixture Fixtures.purchases_distinct eq_refl)
                Hkeys)
    as (_ & Hrows & Hsize).
  cbv zeta in Hrows, Hsize.
  split; [reflexivity|]. split; [reflexivity|]. split; [reflexivity|].
  split.
  - rewrite Hrows. reflexivity.
  - rewrite Hsize. reflexivity.
Defined.

(** C10. For a purchase CSV with the four required columns, the target
    column list of the bulk copy for [purchase] is the whole header of the
    CSV, the required four and any other column, with [t_dat] relabelled
    [timestamp]; [dataset_name] is appended to it as the last label only
    when the header has no column of that label, and otherwise the list is
    as long as the header.  Every row handed to the copy has one cell per
    target column: the dataset name under [dataset_name], also where the
    CSV had a cell of its own there, and under every other column the cell
    of one CSV row. *)
Theorem addPurchasesDataset_target_columns (env : Env) dn f df w :
  read_csv env f "," = Some df →
  frame_wf df →
  (∀ c, c ∈ required_columns → c ∈ columns df) →
  let r := __addPurchasesDataset env dn f w in
  let cols := map relabel (columns df)
              ++ (if bool_decide ("dataset_name" ∈ columns df) then []
                  else ["dataset_name"]) in
  r.1 = Returned true
  ∧ emitted w r.2
    = [EvReflect; EvCursor; EvReadCsv f ",";
       EvCopyFrom "purchase" (Some cols)
         (length (first_per_key (purchase_key df) [] (rows df)))]
  ∧ (∀ c, c ∈ columns df → relabel c ∈ cols)
  ∧ "dataset_name" ∈ cols
  ∧ length cols
    = (length (columns df)
       + (if bool_decide ("dataset_name" ∈ columns df) then 0 else 1))%nat
  ∧ ∀ b, b ∈ added "purchase" w r.2 →
      target_columns b = Some cols
      ∧ length (fields b) = length cols
      ∧ (∀ i, cols !! i = Some "dataset_name" →
           fields b !! i = Some (Some (VStr dn)))
      ∧ ∃ x, x ∈ rows df
          ∧ ∀ i c, columns df !! i = Some c → c ≠ "dataset_name" →
              fields b !! i = x !! i.
Proof.
  intros Hread Hwf Hreq r cols.
  destruct (purchase_handed env dn f df w Hread Hwf Hreq)
    as (Hret & Hevs & Hadded).
  fold r in Hret, Hevs, Hadded. fold cols in Hevs, Hadded.
  assert (Hcols : cols = map relabel (set_label "dataset_name" (columns df))).
  { subst cols. unfold set_label. case_bool_decide.
    - by rewrite app_nil_r.
    - by rewrite map_app. }
  split; [exact Hret|]. split; [exact Hevs|].
  split.
  { intros c Hc. subst cols. apply elem_of_app. left.
    apply list_elem_of_In, in_map. by apply list_elem_of_In. }
  split.
  { subst cols. apply elem_of_app. case_bool_decide as Hdn.
    - left. apply list_elem_of_In.
      apply (in_map relabel _ "dataset_name"). by apply list_elem_of_In.
    - right. left. }
  split.
  { subst cols. rewrite length_app, length_map. by case_bool_decide. }
  intros b Hb. rewrite Hadded in Hb.
  apply list_elem_of_In, in_map_iff in Hb as (row & <- & Hrow).
  apply in_map_iff in Hrow as (x & <- & Hx).
  apply list_elem_of_In in Hx.
  assert (Hin : x ∈ rows df).
  { eapply elem_of_sublist; [exact Hx | apply first_per_key_sublist]. }
  destruct Hwf as [Hnd Hrect]. unfold frame_rect in Hrect.
  rewrite Forall_forall in Hrect.
  assert (Hlen : length x = length (columns df)) by by apply Hrect.
  cbn [target_columns fields].
  rewrite <- (set_cell_with_dataset_name dn df x Hnd Hlen).
  split; [done|]. split.
  { rewrite Hcols, length_map. by apply set_cell_length. }
  split.
  - intros i Hi. rewrite Hcols in Hi.
    change (map relabel ?l) with (relabel <$> l) in Hi.
    rewrite list_lookup_fmap in Hi.
    destruct (set_label "dataset_name" (columns df) !! i) as [c|] eqn:Hc;
      [|discriminate].
    simpl in Hi. injection Hi as Hi. apply relabel_dataset_name in Hi as ->.
    by apply set_cell_lookup_label.
  - exists x. split; [done|].
    intros i c Hi Hne. by eapply set_cell_lookup_other.
Qed.

(** The whole header of the fixture, with its extra column [channel],
    becomes the target column list, and [dataset_name] is appended. *)
Lemma addPurchasesDataset_target_columns_witness :
  columns Fixtures.purchases
  = ["t_dat"; "customer_id"; "article_id"; "price"; "channel"]
  ∧ emitted Fixtures.fresh
      (__addPurchasesDataset Fixtures.disk "H_M" "purchases.csv"
         Fixtures.fresh).2
    = [EvReflect; EvCursor; EvReadCsv "purchases.csv" ",";
       EvCopyFrom "purchase"
         (Some ["timestamp"; "customer_id"; "article_id"; "price";
                "channel"; "dataset_name"]) 4].
Proof.
  assert (Hwf : frame_wf Fixtures.purchases).
  { split; [apply (bool_decide_unpack _); by vm_compute|].
    unfold frame_rect. by repeat constructor. }
  pose proof (addPurchasesDataset_target_columns Fixtures.disk "H_M"
                "purchases.csv" Fixtures.purchases Fixtures.fresh eq_refl Hwf
                (required_in_fixture Fixtures.purchases eq_refl))
    as (_ & Hevs & _).
  cbv zeta in Hevs.
  split; [reflexivity|]. rewrite Hevs. reflexivity.
Defined.

(** A purchase file that has a [dataset_name] column of its own, next to
    the four required columns: the load succeeds, the target column list
    has the five labels of the header and no sixth, and the row handed to
    the copy carries the name of the dataset being loaded in the place of
    the file's own cell, which does not reach the copy. *)
Lemma addPurchasesDataset_dataset_name_counterexample :
  let df := Fixtures.purchases_named in
  let r := __addPurchasesDataset Fixtures.disk "H_M" "purchases_named.csv"
             Fixtures.fresh in
  read_csv Fixtures.disk "purchases_named.csv" "," = Some df
  ∧ columns df = ["dataset_name"; "t_dat"; "customer_id"; "article_id"; "price"]
  ∧ map (csv_cell df "dataset_name") (rows df) = [Fixtures.str "old"]
  ∧ r.1 = Returned true
  ∧ emitted Fixtures.fresh r.2
    = [EvReflect; EvCursor; EvReadCsv "purchases_named.csv" ",";
       EvCopyFrom "purchase"
         (Some ["dataset_name"; "timestamp"; "customer_id"; "article_id";
                "price"]) 1]
  ∧ added "purchase" Fixtures.fresh r.2
    = [mkBulk (Some ["dataset_name"; "timestamp"; "customer_id";
                     "article_id"; "price"])
         [Fixtures.str "H_M"; Fixtures.str "2020-01-01"; Fixtures.int 10;
          Fixtures.int 1; Fixtures.str "9.99"]].
Proof. repeat split; vm_compute; reflexivity. Qed.

(** ** The task when winding up fails *)

Section TaskErrors.

Import Tasks.

Variable I : InsertDatasetClass.
Variable abs_path : string → string.

Ltac task_steps :=
  cbv beta iota zeta delta
    [run_insert bind try_finally try_except call on_error Logger_logError
     raise ret fst snd].

(** X19. When [start_insert] raises an [Exception] and [abort] raises in
    turn, the error of [abort] is the one the task raises: the error of
    [start_insert] is neither logged nor passed on, and [cleanup] is still
    called, on the object as [abort] left it. *)
Theorem insert_dataset_abort_raises user_id filenames csd obj err o1 e2 o2 o3 :
  init I user_id (debug_filenames abs_path) debug_column_select_data
    = inr obj →
  start_insert I obj = (Some err, o1) →
  cls err ≠ NotException →
  abort I o1 = (Some e2, o2) →
  cleanup I o2 = (None, o3) →
  insert_dataset I abs_path user_id filenames csd
  = (inl e2,
     [TPrint user_id filenames csd;
      TInit user_id (debug_filenames abs_path) debug_column_select_data;
      TStartInsert; TAbort; TCleanup],
     Some o3).
Proof.
  intros Hinit Hstart Hcls Habort Hclean.
  unfold insert_dataset. rewrite Hinit.
  task_steps.
  rewrite Hstart. task_steps.
  destruct (cls err); [| |done]; task_steps; rewrite Habort; task_steps;
    rewrite Hclean; reflexivity.
Qed.

(** X21. An error raised by [cleanup] is what the task raises, whatever
    happened before: it takes the place of the value the task would have
    returned and of any error of [start_insert] or [abort]. *)
Theorem insert_dataset_cleanup_raises user_id filenames csd obj e3 o3 :
  init I user_id (debug_filenames abs_path) debug_column_select_data
    = inr obj →
  cleanup I (before_cleanup I obj) = (Some e3, o3) →
  let run := insert_dataset I abs_path user_id filenames csd in
  run.1.1 = inl e3
  ∧ run.2 = Some o3
  ∧ last run.1.2 = Some TCleanup.
Proof.
  intros Hinit Hclean run. subst run.
  unfold insert_dataset. rewrite Hinit.
  unfold before_cleanup in Hclean.
  task_steps.
  destruct (start_insert I obj) as [[err|] o1]; task_steps.
  - destruct (cls err); task_steps.
    + destruct (abort I o1) as [[e2|] o2]; task_steps;
        cbn [snd] in Hclean; rewrite Hclean; by cbn.
    + destruct (abort I o1) as [[e2|] o2]; task_steps;
        cbn [snd] in Hclean; rewrite Hclean; by cbn.
    + rewrite Hclean. by cbn.
  - rewrite Hclean. by cbn.
Qed.

End TaskErrors.

(** The loader rejects its input and then fails to roll back: the task
    raises the error of the rollback, and "bad column" is not logged. *)
Lemma insert_dataset_abort_raises_witness :
  Tasks.insert_dataset Fixtures.stuck_loader Fixtures.project_root
    "u1" [] (Tasks.PDict [])
  = (inl (Tasks.mkErr Tasks.OtherException "rollback failed"),
     [Tasks.TPrint "u1" [] (Tasks.PDict []);
      Tasks.TInit "u1" (Tasks.debug_filenames Fixtures.project_root)
        Tasks.debug_column_select_data;
      Tasks.TStartInsert; Tasks.TAbort; Tasks.TCleanup],
     Some 3).
Proof.
  refine (insert_dataset_abort_raises Fixtures.stuck_loader
            Fixtures.project_root "u1" [] (Tasks.PDict []) 0
            (Tasks.mkErr Tasks.ValueError "bad column") 1
            (Tasks.mkErr Tasks.OtherException "rollback failed") 2 3
            eq_refl eq_refl _ eq_refl eq_refl).
  discriminate.
Defined.

(** The insert went well and the connection cannot be released: the task
    raises instead of returning. *)
Lemma insert_dataset_cleanup_raises_witness :
  Tasks.start_insert Fixtures.leaky_loader 0 = (None, 1)
  ∧ (Tasks.insert_dataset Fixtures.leaky_loader Fixtures.project_root
       "u1" [] (Tasks.PDict [])).1.1
    = inl (Tasks.mkErr Tasks.OtherException "pool closed")
  ∧ (Tasks.insert_dataset Fixtures.leaky_loader Fixtures.project_root
       "u1" [] (Tasks.PDict [])).2 = Some 2
  ∧ last (Tasks.insert_dataset Fixtures.leaky_loader Fixtures.project_root
            "u1" [] (Tasks.PDict [])).1.2 = Some Tasks.TCleanup.
Proof.
  split; [reflexivity|].
  exact (insert_dataset_cleanup_raises Fixtures.leaky_loader
           Fixtures.project_root "u1" [] (Tasks.PDict [])
           0 (Tasks.mkErr Tasks.OtherException "pool closed") 2
           eq_refl eq_refl).
Defined.
